(** * SqlChatbot: the query client and the conversation state

    A shallow embedding of [src/components/SqlChatbot.jsx].  The file holds
    two components: the shell with a sidebar (module [Shell]: its client and
    its handlers) and the simpler boxed one (module [Boxed]: its client,
    which takes no model; its [handleAsk] differs from the shell's in the
    text of the answer message only and is not repeated).
    Both post a question to a SQL-generation endpoint and append the answer
    to a message list kept in React state.

    Modelled: JavaScript strings as sequences of UTF-16 code units, the
    values a JSON response can hold, property reads through the prototype
    chain of a plain object, [async] functions as trees of effects with one
    suspension point per [fetch], and React state as a record updated by the
    setters a handler calls.  Not modelled: rendering, CSS, scrolling, focus,
    the sidebar toggle and the clipboard button. *)

From Stdlib Require Import SpecFloat.
From stdpp Require Import gmap strings list fin_maps.

(** ** JavaScript strings *)

(** A string is its sequence of UTF-16 code units. *)
Definition jsstring : Type := list N.

(** An ASCII literal of the source as a JavaScript string. *)
Definition js (s : string) : jsstring :=
  map Ascii.N_of_ascii (String.list_ascii_of_string s).

(** ECMAScript [WhiteSpace] and [LineTerminator] code points: the characters
    [String.prototype.trim] strips. *)
Definition is_js_whitespace (c : N) : bool :=
  ((c =? 0x0009) || (c =? 0x000A) || (c =? 0x000B) || (c =? 0x000C) ||
  (c =? 0x000D) || (c =? 0x0020) || (c =? 0x00A0) || (c =? 0x1680) ||
  ((0x2000 <=? c) && (c <=? 0x200A)) ||
  (c =? 0x2028) || (c =? 0x2029) || (c =? 0x202F) || (c =? 0x205F) ||
  (c =? 0x3000) || (c =? 0xFEFF))%N.

Fixpoint trimStart (s : jsstring) : jsstring :=
  match s with
  | [] => []
  | c :: r => if is_js_whitespace c then trimStart r else s
  end.

Definition trimEnd (s : jsstring) : jsstring := rev (trimStart (rev s)).

(** [s.trim()] *)
Definition trim (s : jsstring) : jsstring := trimEnd (trimStart s).

(** ** JavaScript values *)

(** The values this code handles: what [JSON.parse] can produce, [undefined],
    and the members a plain object inherits from [Object.prototype]
    ([VBuiltin name]: the function or object found under that name).  A
    number is an IEEE 754 double. *)
#[warnings="-register-all"] Inductive jsval : Type :=
| VUndefined
| VNull
| VBool (b : bool)
| VNum (x : spec_float)
| VStr (s : jsstring)
| VArr (items : list jsval)
| VObj (props : gmap jsstring jsval)
| VBuiltin (name : jsstring).

(** ToBoolean, as used by [||] and [!].  Every object is truthy; a number is
    falsy when it is zero or NaN. *)
Definition truthy (v : jsval) : bool :=
  match v with
  | VUndefined | VNull => false
  | VBool b => b
  | VNum (S754_zero _) | VNum S754_nan => false
  | VNum _ => true
  | VStr s => negb (bool_decide (s = []))
  | VArr _ | VObj _ | VBuiltin _ => true
  end.

(** [a || b] *)
Definition js_or (a b : jsval) : jsval := if truthy a then a else b.

(** [a ?? b] *)
Definition nullish (a b : jsval) : jsval :=
  match a with
  | VUndefined | VNull => b
  | _ => a
  end.

(** The own property names of [Object.prototype], which every object
    literal and every parsed JSON object inherits. *)
Definition object_prototype_names : list jsstring :=
  [ js "constructor"; js "__defineGetter__"; js "__defineSetter__";
    js "hasOwnProperty"; js "__lookupGetter__"; js "__lookupSetter__";
    js "isPrototypeOf"; js "propertyIsEnumerable"; js "toString";
    js "valueOf"; js "__proto__"; js "toLocaleString" ].

(** An error object: [name] and [message] are all this code reads. *)
Record js_error : Type := JsError { err_name : jsstring; err_message : jsstring }.

(** [new Error(text)] *)
Definition Error (text : jsstring) : js_error :=
  {| err_name := js "Error"; err_message := text |}.

(** The TypeError of a property read on [undefined] or [null]; the message
    text is the engine's and plays no part here beyond being non-empty. *)
Definition TypeError_read (key : jsstring) : js_error :=
  {| err_name := js "TypeError";
     err_message := js "Cannot read properties of null (reading '" ++ key ++ js "')" |}.

(** [obj[key]] and [obj.key] for a string key.  An object yields its own
    property, else what [Object.prototype] has under that name, else
    [undefined]; [undefined] and [null] throw.  For arrays and primitives
    the read is through their wrapper prototypes, which this model covers
    only for the names the code reads on response data ([sql],
    [explanation]): those are found on no built-in prototype. *)
Definition js_get (v : jsval) (key : jsstring) : js_error + jsval :=
  match v with
  | VUndefined | VNull => inl (TypeError_read key)
  | VObj props =>
      match props !! key with
      | Some x => inr x
      | None =>
          if bool_decide (key ∈ object_prototype_names)
          then inr (VBuiltin key) else inr VUndefined
      end
  | _ => inr VUndefined
  end.

(** A value's own property, [undefined] when there is none. *)
Definition own_field (data : jsval) (key : jsstring) : jsval :=
  match data with
  | VObj props => default VUndefined (props !! key)
  | _ => VUndefined
  end.

(** ToPropertyKey of an optional string argument: an omitted argument is
    [undefined], whose key is the string [undefined]. *)
Definition ToPropertyKey (arg : option jsstring) : jsstring :=
  match arg with
  | Some s => s
  | None => js "undefined"
  end.

(** The value of an optional string argument. *)
Definition arg_val (arg : option jsstring) : jsval :=
  match arg with
  | Some s => VStr s
  | None => VUndefined
  end.

(** [Error.prototype.toString] *)
Definition Error_toString (e : js_error) : jsstring :=
  if bool_decide (err_name e = []) then err_message e
  else if bool_decide (err_message e = []) then err_name e
  else err_name e ++ js ": " ++ err_message e.

(** ** Messages *)

Inductive Role : Type := user | assistant.

(** A message object.  [None] in an optional field: the property is absent.
    [sql] and [explanation] hold whatever value the response carried. *)
Record Message : Type := {
  msg_id : jsstring;
  msg_role : Role;
  msg_text : jsstring;
  msg_sql : option jsval;
  msg_explanation : option jsval;
  msg_error : option jsval;
  msg_createdAt : Z
}.

(** ** HTTP *)

(** The JSON object handed to [JSON.stringify] for the request body. *)
Module Payload.
Record t : Type := {
  question : jsstring;
  schema_path : jsstring;
  keywords_path : jsstring;
  dialect : jsstring;
  model : jsval
}.
End Payload.

(** The second argument of [fetch].  [body] is kept as the object that
    [JSON.stringify] serialises. *)
Record FetchInit : Type := {
  method : jsstring;
  headers : list (jsstring * jsstring);
  body : Payload.t
}.

(** A response as this code sees it: the status, what [res.text()] resolves
    to, and what [res.json()] resolves to or rejects with. *)
Record Response : Type := {
  res_status : Z;
  res_text : jsstring;
  res_json : js_error + jsval
}.

(** [res.ok]: the status is in the range 200-299. *)
Definition res_ok (res : Response) : bool :=
  ((200 <=? res_status res) && (res_status res <=? 299))%Z.

(** How the promise of one [fetch] settles. *)
Inductive FetchOutcome : Type :=
| Rejected (e : js_error)
| Resolved (res : Response).

(** ** Effects and asynchronous functions *)

(** The body of an [async] function or of a handler: it returns, throws,
    reads an identifier or the clock, calls one of the state setters and goes
    on, or suspends on [fetch(url, init)] until the promise settles. *)
Inductive Async (A : Type) : Type :=
| Ret (a : A)
| Throw (e : js_error)
| RandomUUID (k : jsstring -> Async A)
| DateNow (k : Z -> Async A)
| SetMessages (f : list Message -> list Message) (k : Async A)
| SetInput (text : jsstring) (k : Async A)
| SetLoading (b : bool) (k : Async A)
| SetModel (m : jsstring) (k : Async A)
| Await (url : jsval) (init : FetchInit) (k : FetchOutcome -> Async A).

Arguments Ret {A} a.
Arguments Throw {A} e.
Arguments RandomUUID {A} k.
Arguments DateNow {A} k.
Arguments SetMessages {A} f k.
Arguments SetInput {A} text k.
Arguments SetLoading {A} b k.
Arguments SetModel {A} m k.
Arguments Await {A} url init k.

Fixpoint bind {A B : Type} (f : A -> Async B) (m : Async A) : Async B :=
  match m with
  | Ret a => f a
  | Throw e => Throw e
  | RandomUUID k => RandomUUID (fun id => bind f (k id))
  | DateNow k => DateNow (fun now => bind f (k now))
  | SetMessages g k => SetMessages g (bind f k)
  | SetInput text k => SetInput text (bind f k)
  | SetLoading b k => SetLoading b (bind f k)
  | SetModel m k => SetModel m (bind f k)
  | Await url init k => Await url init (fun o => bind f (k o))
  end.

#[global] Instance Async_ret : MRet Async := fun A a => Ret a.
#[global] Instance Async_bind : MBind Async := fun A B f m => bind f m.

(** [try { body } catch (err) { handler }] *)
Fixpoint try_catch {A : Type} (body : Async A) (handler : js_error -> Async A)
  : Async A :=
  match body with
  | Ret a => Ret a
  | Throw e => handler e
  | RandomUUID k => RandomUUID (fun id => try_catch (k id) handler)
  | DateNow k => DateNow (fun now => try_catch (k now) handler)
  | SetMessages g k => SetMessages g (try_catch k handler)
  | SetInput text k => SetInput text (try_catch k handler)
  | SetLoading b k => SetLoading b (try_catch k handler)
  | SetModel m k => SetModel m (try_catch k handler)
  | Await url init k => Await url init (fun o => try_catch (k o) handler)
  end.

(** [try { body } finally { fin }] *)
Fixpoint try_finally {A : Type} (body : Async A) (fin : Async unit) : Async A :=
  match body with
  | Ret a => _ ← fin; Ret a
  | Throw e => _ ← fin; Throw e
  | RandomUUID k => RandomUUID (fun id => try_finally (k id) fin)
  | DateNow k => DateNow (fun now => try_finally (k now) fin)
  | SetMessages g k => SetMessages g (try_finally k fin)
  | SetInput text k => SetInput text (try_finally k fin)
  | SetLoading b k => SetLoading b (try_finally k fin)
  | SetModel m k => SetModel m (try_finally k fin)
  | Await url init k => Await url init (fun o => try_finally (k o) fin)
  end.

(** [crypto.randomUUID()] *)
Definition randomUUID : Async jsstring := RandomUUID Ret.

(** [Date.now()] *)
Definition now_ms : Async Z := DateNow Ret.

Definition setMessages (f : list Message -> list Message) : Async unit :=
  SetMessages f (Ret tt).
Definition setInput (text : jsstring) : Async unit := SetInput text (Ret tt).
Definition setLoading (b : bool) : Async unit := SetLoading b (Ret tt).
Definition setModel (m : jsstring) : Async unit := SetModel m (Ret tt).

(** A synchronous step that may throw. *)
Definition lift {A : Type} (r : js_error + A) : Async A :=
  match r with
  | inl e => Throw e
  | inr a => Ret a
  end.

(** [await fetch(url, init)] *)
Definition fetch (url : jsval) (init : FetchInit) : Async Response :=
  Await url init (fun o =>
    match o with
    | Rejected e => Throw e
    | Resolved res => Ret res
    end).

(** A suspended call after its request has settled with [o]. *)
Definition resume {A : Type} (p : Async A) (o : FetchOutcome) : Async A :=
  match p with
  | Await _ _ k => k o
  | _ => p
  end.

(** What the client returns. *)
Record ApiResult : Type := { sql : jsval; explanation : jsval }.

(** The part of [callGenerateSqlAPI] after [fetch] has resolved, the same in
    both components. *)
Definition read_response (res : Response) : Async ApiResult :=
  if negb (res_ok res) then Throw (Error (res_text res))
  else
    data ← lift (res_json res);
    s ← lift (js_get data (js "sql"));
    e ← lift (js_get data (js "explanation"));
    Ret {| sql := nullish s (VStr []); explanation := nullish e (VStr []) |}.

Definition json_headers : list (jsstring * jsstring) :=
  [ (js "Content-Type", js "application/json") ].

(** ** The answer panel *)

(** [s.split(LF)] on a string: the pieces between line feeds (U+000A); the
    empty string has one piece. *)
Fixpoint split_lines (s : jsstring) : list jsstring :=
  match s with
  | [] => [[]]
  | c :: r =>
      if (c =? 10)%N then [] :: split_lines r
      else match split_lines r with
           | l :: ls => (c :: l) :: ls
           | [] => [[c]]
           end
  end.

(** [lines.join(LF)] *)
Fixpoint join_lines (ls : list jsstring) : jsstring :=
  match ls with
  | [] => []
  | l :: rest =>
      match rest with
      | [] => l
      | _ :: _ => l ++ 10%N :: join_lines rest
      end
  end.

(** The callback of [map] in [indentSql]: a line with anything but white
    space on it gets two spaces in front. *)
Definition indent_line (ln : jsstring) : jsstring :=
  if truthy (VStr (trim ln)) then js "  " ++ ln else ln.

(** [indentSql] on a string. *)
Definition indent_text (s : jsstring) : jsstring :=
  join_lines (map indent_line (split_lines s)).

(** The TypeError of calling what is not a function. *)
Definition TypeError_call (what : jsstring) : js_error :=
  {| err_name := js "TypeError"; err_message := what ++ js " is not a function" |}.

(** [indentSql(s)] for any value: only a string has a [split] method; on a
    number, a boolean, an array or a parsed JSON object [s.split] is
    [undefined] or not callable, and the call throws. *)
Definition indentSql (s : jsval) : js_error + jsstring :=
  match s with
  | VStr str => inr (indent_text str)
  | VUndefined | VNull => inl (TypeError_read (js "split"))
  | _ => inl (TypeError_call (js "s.split"))
  end.

(** The two cards of the panel. *)
Inductive Card : Type :=
| CodeBlock (title : jsstring) (copy_value : jsval) (code : jsstring)
| TextCard (title : jsstring) (text : jsval).

(** [v && card] as a child: the card, or the falsy [v] itself. *)
Inductive Slot : Type :=
| Shown (c : Card)
| Skipped (v : jsval).

(** What [AssistantAnswer] returns besides [null]. *)
Inductive Answer : Type :=
| ErrorText (child : jsval)
| Details (sql_slot explanation_slot : Slot).

(** [AssistantAnswer({ sql, explanation, error })], the same in both
    components up to styling.  [None] is [null]. *)
Definition AssistantAnswer (sql explanation error : jsval)
  : js_error + option Answer :=
  if truthy error then
    inr (Some (ErrorText (js_or explanation (VStr (js "Something went wrong.")))))
  else if negb (truthy sql) && negb (truthy explanation) then inr None
  else
    let explanation_slot :=
      if truthy explanation then Shown (TextCard (js "Explanation") explanation)
      else Skipped explanation in
    if truthy sql then
      match indentSql sql with
      | inl e => inl e
      | inr code =>
          inr (Some (Details (Shown (CodeBlock (js "Proposed SQL") sql code))
                       explanation_slot))
      end
    else inr (Some (Details (Skipped sql) explanation_slot)).

(** [m.sql] and the like: [undefined] when the property is absent. *)
Definition prop (field : option jsval) : jsval := default VUndefined field.

(** The panel under a message: only assistant messages have one. *)
Definition message_answer (m : Message) : option (js_error + option Answer) :=
  match msg_role m with
  | assistant =>
      Some (AssistantAnswer (prop (msg_sql m)) (prop (msg_explanation m))
              (prop (msg_error m)))
  | user => None
  end.

(** A handler body that cannot end in a throw, whatever it reads and however
    its request settles. *)
Inductive never_throws {A : Type} : Async A -> Prop :=
| nt_Ret a : never_throws (Ret a)
| nt_RandomUUID k : (forall id, never_throws (k id)) -> never_throws (RandomUUID k)
| nt_DateNow k : (forall now, never_throws (k now)) -> never_throws (DateNow k)
| nt_SetMessages f k : never_throws k -> never_throws (SetMessages f k)
| nt_SetInput text k : never_throws k -> never_throws (SetInput text k)
| nt_SetLoading b k : never_throws k -> never_throws (SetLoading b k)
| nt_SetModel m k : never_throws k -> never_throws (SetModel m k)
| nt_Await url init k : (forall o, never_throws (k o)) -> never_throws (Await url init k).

(** ** The copy button *)

Module CopyButton.

(** The body of the click handler: it ends, throws, sets [ok], arms a timer
    with a callback, or suspends on [navigator.clipboard.writeText(value)]. *)
Inductive Prog : Type :=
| Done
| Raise (e : js_error)
| SetOk (b : bool) (k : Prog)
| SetTimeout (callback : Prog) (ms : Z) (k : Prog)
| WriteText (value : jsval) (k : js_error + unit -> Prog).

(** [try { body } catch { handler }] *)
Fixpoint try_catch (body : Prog) (handler : Prog) : Prog :=
  match body with
  | Done => Done
  | Raise _ => handler
  | SetOk b k => SetOk b (try_catch k handler)
  | SetTimeout cb ms k => SetTimeout cb ms (try_catch k handler)
  | WriteText v k => WriteText v (fun r => try_catch (k r) handler)
  end.

(** [onClick] of a button with the given [value]; [delay] is 1100 in the
    shell component and 1200 in the boxed one. *)
Definition onClick (delay : Z) (value : jsval) : Prog :=
  try_catch
    (WriteText value (fun r =>
       match r with
       | inl e => Raise e
       | inr _ => SetOk true (SetTimeout (SetOk false Done) delay Done)
       end))
    Done.

(** The button: its [ok] state, the clipboard writes and the timers that
    are pending, and the rejections nobody handled. *)
Record State : Type := {
  ok : bool;
  writes : list (jsval * (js_error + unit -> Prog));
  timers : list (Z * Prog);
  unhandled : list js_error
}.

Fixpoint exec (p : Prog) (s : State) : State :=
  match p with
  | Done => s
  | Raise e =>
      {| ok := ok s; writes := writes s; timers := timers s;
         unhandled := unhandled s ++ [e] |}
  | SetOk b k =>
      exec k {| ok := b; writes := writes s; timers := timers s;
                unhandled := unhandled s |}
  | SetTimeout cb ms k =>
      exec k {| ok := ok s; writes := writes s; timers := timers s ++ [(ms, cb)];
                unhandled := unhandled s |}
  | WriteText v k =>
      {| ok := ok s; writes := writes s ++ [(v, k)]; timers := timers s;
         unhandled := unhandled s |}
  end.

Inductive Event : Type :=
| Click
| WriteSettled (i : nat) (r : js_error + unit)
| TimerFired (i : nat).

Definition dispatch (delay : Z) (value : jsval) (s : State) (ev : Event) : State :=
  match ev with
  | Click => exec (onClick delay value) s
  | WriteSettled i r =>
      match writes s !! i with
      | Some (_, k) =>
          exec (k r) {| ok := ok s; writes := delete i (writes s);
                        timers := timers s; unhandled := unhandled s |}
      | None => s
      end
  | TimerFired i =>
      match timers s !! i with
      | Some (_, cb) =>
          exec cb {| ok := ok s; writes := writes s;
                     timers := delete i (timers s); unhandled := unhandled s |}
      | None => s
      end
  end.

(** [useState(false)] *)
Definition mount : State :=
  {| ok := false; writes := []; timers := []; unhandled := [] |}.

Definition run (delay : Z) (value : jsval) (s : State) (evs : list Event) : State :=
  foldl (dispatch delay value) s evs.

(** [ok ? Copied : Copy] *)
Definition label (s : State) : jsstring := if ok s then js "Copied" else js "Copy".

(** What is pending was put there by this button, nothing was left
    unhandled, and [ok] is set only while a timer is pending. *)
Definition Inv (delay : Z) (value : jsval) (s : State) : Prop :=
  Forall (λ w, w.1 = value ∧
               ∀ r, w.2 r = match r with
                            | inl _ => Done
                            | inr _ => SetOk true (SetTimeout (SetOk false Done) delay Done)
                            end) (writes s)
  ∧ Forall (λ t, t = (delay, SetOk false Done)) (timers s)
  ∧ unhandled s = []
  ∧ (ok s = true → timers s ≠ []).

End CopyButton.

(** ** The shell component (first in the file) *)

Module Shell.

Definition keyword_url : jsstring := js "https://generate-sql.local/generate_sql".
Definition cluster_url : jsstring := js "https://generate-sql.local/generate_sql_premium".

Definition ENDPOINTS : jsval :=
  VObj (<[js "keyword" := VStr keyword_url]>
        (<[js "cluster" := VStr cluster_url]> ∅)).

(** [MODELS.map(m => m.id)]: the values of the model selector's options. *)
Definition MODELS : list (jsstring * jsstring) :=
  [ (js "keyword", js "Basic"); (js "cluster", js "Premium") ].

Definition callGenerateSqlAPI (question : jsstring) (modelId : option jsstring)
  : Async ApiResult :=
  byModel ← lift (js_get ENDPOINTS (ToPropertyKey modelId));
  apiUrl ← (if truthy byModel then Ret byModel
            else lift (js_get ENDPOINTS (js "keyword")));
  let payload :=
    {| Payload.question := question;
       Payload.schema_path := js "schema_tree.json";
       Payload.keywords_path := js "keyword_to_tables.json";
       Payload.dialect := js "mysql";
       Payload.model := js_or (arg_val modelId) (VStr (js "gpt-5")) |} in
  res ← fetch apiUrl {| method := js "POST"; headers := json_headers; body := payload |};
  read_response res.

(** *** React state *)

(** The state the handlers read and set.  A handler reads the values of the
    render it was created in; React re-renders after every event, so that
    is the state at the time of the event. *)
Record State : Type := {
  messages : list Message;
  input : jsstring;
  loading : bool;
  model : jsstring
}.

(** The greeting, as in [useState] and in [handleNewChat]. *)
Definition seed (now : Z) : Message :=
  {| msg_id := js "seed";
     msg_role := assistant;
     msg_text := js "Hi! Ask me a data question. I'll propose a MySQL query and explain it.";
     msg_sql := None;
     msg_explanation := Some (VStr (js
       "Example: 'Total production by provider for September 2025' or 'New patients scheduled on 2025-10-13'."));
     msg_error := None;
     msg_createdAt := now |}.

Definition user_message (id : jsstring) (question : jsstring) (now : Z) : Message :=
  {| msg_id := id; msg_role := user; msg_text := question;
     msg_sql := None; msg_explanation := None; msg_error := None;
     msg_createdAt := now |}.

Definition answer_message (id : jsstring) (model : jsstring) (r : ApiResult) (now : Z)
  : Message :=
  {| msg_id := id; msg_role := assistant;
     msg_text := js "Here is a suggested SQL query using " ++ model ++ js ".";
     msg_sql := Some (sql r);
     msg_explanation := Some (explanation r);
     msg_error := None;
     msg_createdAt := now |}.

(** [String(err?.message || err)] for an error object. *)
Definition error_text (err : js_error) : jsstring :=
  if truthy (VStr (err_message err)) then err_message err else Error_toString err.

Definition error_message (id : jsstring) (err : js_error) (now : Z) : Message :=
  {| msg_id := id; msg_role := assistant;
     msg_text := js "Sorry, I couldn't generate a query.";
     msg_sql := None;
     msg_explanation := Some (VStr (error_text err));
     msg_error := Some (VStr (js "true"));
     msg_createdAt := now |}.

(** [handleAsk], called in a render whose state is [input], [loading],
    [model].  The identifier and the time stamp of a message are read when
    React runs the updater; the model reads them just before queueing it. *)
Definition handleAsk (input : jsstring) (loading : bool) (model : jsstring)
  : Async unit :=
  let question := trim input in
  if negb (truthy (VStr question)) || loading then Ret tt
  else
    id ← randomUUID;
    now ← now_ms;
    setMessages (fun m => m ++ [user_message id question now]);;
    setInput [];;
    setLoading true;;
    try_finally
      (try_catch
         (r ← callGenerateSqlAPI question (Some model);
          id ← randomUUID;
          now ← now_ms;
          setMessages (fun m => m ++ [answer_message id model r now]))
         (fun err =>
          id ← randomUUID;
          now ← now_ms;
          setMessages (fun m => m ++ [error_message id err now])))
      (setLoading false).

Definition handleNewChat : Async unit :=
  now ← now_ms;
  setMessages (fun _ => [seed now]);;
  setInput [].

(** *** Running the handlers *)

(** The results of [crypto.randomUUID()] and [Date.now()], by the number of
    reads made so far. *)
Record Env : Type := { uuid_at : nat -> jsstring; now_at : nat -> Z }.

(** A request in flight and the rest of the handler that awaits it. *)
Record Call : Type := {
  call_url : jsval;
  call_init : FetchInit;
  call_k : FetchOutcome -> Async unit
}.

Record System : Type := {
  ui : State;
  reads : nat;
  inflight : list Call
}.

Definition with_ui (f : State -> State) (s : System) : System :=
  {| ui := f (ui s); reads := reads s; inflight := inflight s |}.

Definition tick (s : System) : System :=
  {| ui := ui s; reads := S (reads s); inflight := inflight s |}.

(** Run a handler until it ends or suspends on a request.  An exception
    that reaches the top is an unhandled rejection and changes nothing. *)
Fixpoint exec (env : Env) (p : Async unit) (s : System) : System :=
  match p with
  | Ret _ => s
  | Throw _ => s
  | RandomUUID k => exec env (k (uuid_at env (reads s))) (tick s)
  | DateNow k => exec env (k (now_at env (reads s))) (tick s)
  | SetMessages f k =>
      exec env k
        (with_ui (fun st => {| messages := f (messages st); input := input st;
                               loading := loading st; model := model st |}) s)
  | SetInput text k =>
      exec env k
        (with_ui (fun st => {| messages := messages st; input := text;
                               loading := loading st; model := model st |}) s)
  | SetLoading b k =>
      exec env k
        (with_ui (fun st => {| messages := messages st; input := input st;
                               loading := b; model := model st |}) s)
  | SetModel m k =>
      exec env k
        (with_ui (fun st => {| messages := messages st; input := input st;
                               loading := loading st; model := m |}) s)
  | Await url init k =>
      {| ui := ui s; reads := reads s;
         inflight := inflight s ++ [ {| call_url := url; call_init := init; call_k := k |} ] |}
  end.

(** What can happen to the component: the user edits the text area, picks
    a model, submits, starts a new chat, or the [i]-th request in flight
    settles. *)
Inductive Event : Type :=
| ChangeInput (text : jsstring)
| SelectModel (m : jsstring)
| Ask
| NewChat
| Settle (i : nat) (o : FetchOutcome).

Definition dispatch (env : Env) (s : System) (ev : Event) : System :=
  match ev with
  | ChangeInput text => exec env (setInput text) s
  | SelectModel m => exec env (setModel m) s
  | Ask => exec env (handleAsk (input (ui s)) (loading (ui s)) (model (ui s))) s
  | NewChat => exec env handleNewChat s
  | Settle i o =>
      match inflight s !! i with
      | Some c =>
          exec env (call_k c o)
            {| ui := ui s; reads := reads s; inflight := delete i (inflight s) |}
      | None => s
      end
  end.

(** The selector offers the identifiers of [MODELS] only. *)
Definition offered (ev : Event) : Prop :=
  match ev with
  | SelectModel m => m ∈ MODELS.*1
  | _ => True
  end.

(** [MODELS[0].id] *)
Definition default_model : jsstring :=
  match MODELS with
  | m :: _ => m.1
  | [] => []
  end.

(** The state after mounting: the greeting, an empty text area, nothing
    pending, the first model selected. *)
Definition mount (env : Env) : System :=
  {| ui := {| messages := [seed (now_at env 0)]; input := []; loading := false;
              model := default_model |};
     reads := 1;
     inflight := [] |}.

Inductive reachable (env : Env) : System -> Prop :=
| reach_mount : reachable env (mount env)
| reach_step s ev :
    reachable env s -> offered ev -> reachable env (dispatch env s ev).

(** *** Closed forms used in the statements

    Each is proved below to be what the code above computes. *)

(** The request [callGenerateSqlAPI] builds once the endpoint is chosen. *)
Definition init_of (question : jsstring) (modelId : option jsstring) : FetchInit :=
  {| method := js "POST"; headers := json_headers;
     body := {| Payload.question := question;
                Payload.schema_path := js "schema_tree.json";
                Payload.keywords_path := js "keyword_to_tables.json";
                Payload.dialect := js "mysql";
                Payload.model := js_or (arg_val modelId) (VStr (js "gpt-5")) |} |}.

(** What [ENDPOINTS[key]] evaluates to, by cases on the key. *)
Definition endpoint_value (key : jsstring) : jsval :=
  if decide (key = js "keyword") then VStr keyword_url
  else if decide (key = js "cluster") then VStr cluster_url
  else if bool_decide (key ∈ object_prototype_names) then VBuiltin key
  else VUndefined.

(** [ENDPOINTS[modelId] || ENDPOINTS.keyword] *)
Definition apiUrl_of (modelId : option jsstring) : jsval :=
  js_or (endpoint_value (ToPropertyKey modelId)) (VStr keyword_url).

(** The message appended when the call of a submission has yielded [r]. *)
Definition settle_message (id : jsstring) (model : jsstring)
    (r : js_error + ApiResult) (now : Z) : Message :=
  match r with
  | inl err => error_message id err now
  | inr a => answer_message id model a now
  end.

(** The state after the rest of [handleAsk] has run on the call's result. *)
Definition settled (env : Env) (asked_with : jsstring) (r : js_error + ApiResult)
    (s : System) : System :=
  {| ui := {| messages := messages (ui s) ++
                [settle_message (uuid_at env (reads s)) asked_with r
                   (now_at env (S (reads s)))];
              input := input (ui s);
              loading := false;
              model := model (ui s) |};
     reads := S (S (reads s));
     inflight := inflight s |}.

(** The state right after an accepted submission, up to the parked call. *)
Definition asked (env : Env) (s : System) (c : Call) : System :=
  {| ui := {| messages := messages (ui s) ++
                [user_message (uuid_at env (reads s)) (trim (input (ui s)))
                   (now_at env (S (reads s)))];
              input := [];
              loading := true;
              model := model (ui s) |};
     reads := S (S (reads s));
     inflight := inflight s ++ [c] |}.

(** A parked call that belongs to a submission of [question] under [m]. *)
Definition call_of_ask (question m : jsstring) (c : Call) : Prop :=
  call_url c = apiUrl_of (Some m) ∧
  call_init c = init_of question (Some m) ∧
  ∀ env o r s,
    resume (callGenerateSqlAPI question (Some m)) o = lift r →
    exec env (call_k c o) s = settled env m r s.

(** Events in sequence. *)
Definition run (env : Env) (s : System) (evs : list Event) : System :=
  foldl (dispatch env) s evs.

(** The pending flag and the requests in flight go together: nothing is in
    flight when [loading] is false, and exactly one call, parked by a
    submission, when it is true. *)
Definition Inv (s : System) : Prop :=
  (loading (ui s) = false ∧ inflight s = []) ∨
  (loading (ui s) = true ∧ ∃ c q m, inflight s = [c] ∧ call_of_ask q m c).

(** *** The composer *)

(** [disabled={loading || !input.trim()}] on the Ask button. *)
Definition send_disabled (st : State) : bool :=
  loading st || negb (truthy (VStr (trim (input st)))).

(** What [onKeyDown] reads of the keyboard event. *)
Record KeyEvent : Type := { key : jsstring; shiftKey : bool }.

(** [onKeyDown(e)] in a render with state [st]: whether [e.preventDefault()]
    is called, and what runs. *)
Definition onKeyDown (e : KeyEvent) (st : State) : bool * Async unit :=
  if bool_decide (key e = js "Enter") && negb (shiftKey e)
  then (true, handleAsk (input st) (loading st) (model st))
  else (false, Ret tt).

(** [setTimeout(() => setOk(false), 1100)] *)
Definition copy_delay : Z := 1100.

End Shell.

(** ** The boxed component (second in the file) *)

Module Boxed.

Definition API_URL : jsstring := js "https://generate-sql.local/generate_sql".

Definition callGenerateSqlAPI (question : jsstring) : Async ApiResult :=
  let payload :=
    {| Payload.question := question;
       Payload.schema_path := js "schema_tree.json";
       Payload.keywords_path := js "keyword_to_tables.json";
       Payload.dialect := js "mysql";
       Payload.model := VStr (js "gpt-5") |} in
  res ← fetch (VStr API_URL)
          {| method := js "POST"; headers := json_headers; body := payload |};
  read_response res.

(** *** React state *)

Record State : Type := {
  messages : list Message;
  input : jsstring;
  loading : bool
}.

Definition seed (now : Z) : Message :=
  {| msg_id := js "seed";
     msg_role := assistant;
     msg_text := js "Hi! Ask me a data question. I'll propose a MySQL query and explain it.";
     msg_sql := None;
     msg_explanation := Some (VStr (js
       "Example: 'Total production by provider for September 2025' or 'New patients scheduled on 2025-10-13'."));
     msg_error := None;
     msg_createdAt := now |}.

Definition user_message (id : jsstring) (question : jsstring) (now : Z) : Message :=
  {| msg_id := id; msg_role := user; msg_text := question;
     msg_sql := None; msg_explanation := None; msg_error := None;
     msg_createdAt := now |}.

Definition answer_message (id : jsstring) (r : ApiResult) (now : Z) : Message :=
  {| msg_id := id; msg_role := assistant;
     msg_text := js "Here is a suggested SQL query and an explanation.";
     msg_sql := Some (sql r);
     msg_explanation := Some (explanation r);
     msg_error := None;
     msg_createdAt := now |}.

(** [String(err?.message || err)] for an error object. *)
Definition error_text (err : js_error) : jsstring :=
  if truthy (VStr (err_message err)) then err_message err else Error_toString err.

Definition error_message (id : jsstring) (err : js_error) (now : Z) : Message :=
  {| msg_id := id; msg_role := assistant;
     msg_text := js "Sorry, I couldn't generate a query.";
     msg_sql := None;
     msg_explanation := Some (VStr (error_text err));
     msg_error := Some (VStr (js "true"));
     msg_createdAt := now |}.

Definition handleAsk (input : jsstring) (loading : bool) : Async unit :=
  let question := trim input in
  if negb (truthy (VStr question)) || loading then Ret tt
  else
    id ← randomUUID;
    now ← now_ms;
    setMessages (fun m => m ++ [user_message id question now]);;
    setInput [];;
    setLoading true;;
    try_finally
      (try_catch
         (r ← callGenerateSqlAPI question;
          id ← randomUUID;
          now ← now_ms;
          setMessages (fun m => m ++ [answer_message id r now]))
         (fun err =>
          id ← randomUUID;
          now ← now_ms;
          setMessages (fun m => m ++ [error_message id err now])))
      (setLoading false).

(** *** Running the handlers *)

Record Env : Type := { uuid_at : nat -> jsstring; now_at : nat -> Z }.

Record Call : Type := {
  call_url : jsval;
  call_init : FetchInit;
  call_k : FetchOutcome -> Async unit
}.

Record System : Type := {
  ui : State;
  reads : nat;
  inflight : list Call
}.

Definition with_ui (f : State -> State) (s : System) : System :=
  {| ui := f (ui s); reads := reads s; inflight := inflight s |}.

Definition tick (s : System) : System :=
  {| ui := ui s; reads := S (reads s); inflight := inflight s |}.

(** As in the shell component; this one has no model to set. *)
Fixpoint exec (env : Env) (p : Async unit) (s : System) : System :=
  match p with
  | Ret _ => s
  | Throw _ => s
  | RandomUUID k => exec env (k (uuid_at env (reads s))) (tick s)
  | DateNow k => exec env (k (now_at env (reads s))) (tick s)
  | SetMessages f k =>
      exec env k
        (with_ui (fun st => {| messages := f (messages st); input := input st;
                               loading := loading st |}) s)
  | SetInput text k =>
      exec env k
        (with_ui (fun st => {| messages := messages st; input := text;
                               loading := loading st |}) s)
  | SetLoading b k =>
      exec env k
        (with_ui (fun st => {| messages := messages st; input := input st;
                               loading := b |}) s)
  | SetModel _ k => exec env k s
  | Await url init k =>
      {| ui := ui s; reads := reads s;
         inflight := inflight s ++ [ {| call_url := url; call_init := init; call_k := k |} ] |}
  end.

(** The user edits the text area or submits, or a request settles: this
    component has no reset and no model selector. *)
Inductive Event : Type :=
| ChangeInput (text : jsstring)
| Ask
| Settle (i : nat) (o : FetchOutcome).

Definition dispatch (env : Env) (s : System) (ev : Event) : System :=
  match ev with
  | ChangeInput text => exec env (setInput text) s
  | Ask => exec env (handleAsk (input (ui s)) (loading (ui s))) s
  | Settle i o =>
      match inflight s !! i with
      | Some c =>
          exec env (call_k c o)
            {| ui := ui s; reads := reads s; inflight := delete i (inflight s) |}
      | None => s
      end
  end.

Definition mount (env : Env) : System :=
  {| ui := {| messages := [seed (now_at env 0)]; input := []; loading := false |};
     reads := 1;
     inflight := [] |}.

Definition run (env : Env) (s : System) (evs : list Event) : System :=
  foldl (dispatch env) s evs.

Inductive reachable (env : Env) : System -> Prop :=
| reach_mount : reachable env (mount env)
| reach_step s ev : reachable env s -> reachable env (dispatch env s ev).

(** *** Closed forms used in the statements *)

Definition settle_message (id : jsstring) (r : js_error + ApiResult) (now : Z)
  : Message :=
  match r with
  | inl err => error_message id err now
  | inr a => answer_message id a now
  end.

Definition settled (env : Env) (r : js_error + ApiResult) (s : System) : System :=
  {| ui := {| messages := messages (ui s) ++
                [settle_message (uuid_at env (reads s)) r (now_at env (S (reads s)))];
              input := input (ui s);
              loading := false |};
     reads := S (S (reads s));
     inflight := inflight s |}.

Definition asked (env : Env) (s : System) (c : Call) : System :=
  {| ui := {| messages := messages (ui s) ++
                [user_message (uuid_at env (reads s)) (trim (input (ui s)))
                   (now_at env (S (reads s)))];
              input := [];
              loading := true |};
     reads := S (S (reads s));
     inflight := inflight s ++ [c] |}.

Definition call_of_ask (question : jsstring) (c : Call) : Prop :=
  call_url c = VStr API_URL ∧
  Payload.question (body (call_init c)) = question ∧
  ∀ env o r s,
    resume (callGenerateSqlAPI question) o = lift r →
    exec env (call_k c o) s = settled env r s.

Definition Inv (s : System) : Prop :=
  (loading (ui s) = false ∧ inflight s = []) ∨
  (loading (ui s) = true ∧ ∃ c q, inflight s = [c] ∧ call_of_ask q c).

(** [setTimeout(() => setOk(false), 1200)] *)
Definition copy_delay : Z := 1200.

End Boxed.

(** ** Sample inputs *)

Module Sample.
Import Shell.

Definition env : Env :=
  {| uuid_at := fun n => js "id-" ++ [(48 + N.of_nat n)%N]; now_at := fun n => Z.of_nat n |}.

(** The double quote, U+0022. *)
Definition dq : jsstring := [34%N].

(** A 500 response with the body [boom]; the body is not JSON. *)
Definition boom : Response :=
  {| res_status := 500;
     res_text := js "boom";
     res_json := inl {| err_name := js "SyntaxError";
                        err_message := js "Unexpected token 'b'" |} |}.

(** A 500 response with an empty body. *)
Definition empty_500 : Response :=
  {| res_status := 500;
     res_text := [];
     res_json := inl {| err_name := js "SyntaxError";
                        err_message := js "Unexpected end of JSON input" |} |}.

Definition select_1_data : jsval :=
  VObj (<[js "sql" := VStr (js "SELECT 1")]>
        (<[js "explanation" := VStr (js "because")]> ∅)).

(** The double 42: 5910974510923776 * 2^-47. *)
Definition forty_two : spec_float := S754_finite false 5910974510923776 (-47).

Definition sql_42_data : jsval := VObj (<[js "sql" := VNum forty_two]> ∅).

(** A 200 response with the body [{sql: SELECT 1, explanation: because}]
    (keys and strings quoted in the text). *)
Definition select_1 : Response :=
  {| res_status := 200;
     res_text := js "{" ++ dq ++ js "sql" ++ dq ++ js ":" ++ dq ++ js "SELECT 1" ++ dq
                 ++ js "," ++ dq ++ js "explanation" ++ dq ++ js ":" ++ dq
                 ++ js "because" ++ dq ++ js "}";
     res_json := inr select_1_data |}.

(** A 200 response with the body [{sql: 42}], the number 42. *)
Definition sql_42 : Response :=
  {| res_status := 200;
     res_text := js "{" ++ dq ++ js "sql" ++ dq ++ js ":42}";
     res_json := inr sql_42_data |}.

Definition boxed_env : Boxed.Env :=
  {| Boxed.uuid_at := fun n => js "id-" ++ [(48 + N.of_nat n)%N];
     Boxed.now_at := fun n => Z.of_nat n |}.

(** The boxed component after the user typed [ hi ] with spaces around. *)
Definition boxed_typed : Boxed.System :=
  Boxed.dispatch boxed_env (Boxed.mount boxed_env) (Boxed.ChangeInput (js "  hi ")).

(** The mounted component after the user typed [ hi ] with spaces around. *)
Definition typed : System := dispatch env (mount env) (ChangeInput (js "  hi ")).

(** ... and submitted it. *)
Definition submitted : System := dispatch env typed Ask.

End Sample.

(** * Properties *)

Import Shell.

(** ** Strings and values *)

Example trim_hi : trim (js "  hi ") = js "hi".
Proof. reflexivity. Qed.

(** Tab, line feed, no-break space, ideographic space and byte order mark
    are all stripped. *)
Example trim_blank : trim [0x9; 0xA; 0x20; 0xA0; 0x3000; 0xFEFF]%N = [].
Proof. reflexivity. Qed.

Example trim_inner : trim (js " a b ") = js "a b".
Proof. reflexivity. Qed.

Lemma trimStart_whitespace (s : jsstring) :
  Forall (λ c, is_js_whitespace c = true) s → trimStart s = [].
Proof.
  induction 1 as [|c s Hc _ IH]; [done|]. cbn [trimStart]. by rewrite Hc.
Qed.

(** A question made of white space only is empty after trimming. *)
Lemma trim_whitespace (s : jsstring) :
  Forall (λ c, is_js_whitespace c = true) s → trim s = [].
Proof.
  intros H. unfold trim, trimEnd. by rewrite (trimStart_whitespace s H).
Qed.

Lemma truthy_VStr (s : jsstring) : truthy (VStr s) = negb (bool_decide (s = [])).
Proof. reflexivity. Qed.

Lemma truthy_VStr_nonempty (s : jsstring) : s ≠ [] → truthy (VStr s) = true.
Proof. intros H. rewrite truthy_VStr, bool_decide_eq_false_2; done. Qed.

Lemma bind_lift {A B : Type} (r : js_error + A) (f : A → Async B) :
  bind f (lift r) = match r with inl e => Throw e | inr a => f a end.
Proof. by destruct r. Qed.

(** The two names read on response data are not inherited. *)
Lemma sql_not_inherited : js "sql" ∉ object_prototype_names.
Proof. by apply (bool_decide_unpack _). Qed.

Lemma explanation_not_inherited : js "explanation" ∉ object_prototype_names.
Proof. by apply (bool_decide_unpack _). Qed.

Lemma js_get_own (data : jsval) (key : jsstring) :
  data ≠ VNull → data ≠ VUndefined → key ∉ object_prototype_names →
  js_get data key = inr (own_field data key).
Proof.
  intros Hn Hu Hk. destruct data; try done; simpl.
  destruct (props !! key); [done|].
  by rewrite bool_decide_eq_false_2.
Qed.

(** ** The client *)

(** [read_response] never suspends: it returns or throws. *)
Lemma read_response_leaf (res : Response) :
  ∃ r : js_error + ApiResult, read_response res = lift r.
Proof.
  unfold read_response. destruct (res_ok res); simpl.
  - destruct (res_json res) as [e|data]; simpl; [by exists (inl e)|].
    change (mbind ?f ?m) with (bind f m). rewrite bind_lift.
    destruct (js_get data (js "sql")) as [e|s]; [by exists (inl e)|].
    change (mbind ?f ?m) with (bind f m). rewrite bind_lift.
    destruct (js_get data (js "explanation")) as [e|x]; [by exists (inl e)|].
    by eexists (inr _).
  - by exists (inl (Error (res_text res))).
Qed.

Lemma read_response_not_ok (res : Response) :
  res_ok res = false → read_response res = Throw (Error (res_text res)).
Proof. intros H. unfold read_response. by rewrite H. Qed.

Lemma read_response_ok (res : Response) (data : jsval) :
  res_ok res = true → res_json res = inr data →
  data ≠ VNull → data ≠ VUndefined →
  read_response res =
    Ret {| sql := nullish (own_field data (js "sql")) (VStr []);
           explanation := nullish (own_field data (js "explanation")) (VStr []) |}.
Proof.
  intros Hok Hj Hn Hu. unfold read_response. rewrite Hok, Hj. simpl.
  change (mbind ?f ?m) with (bind f m).
  rewrite (js_get_own data (js "sql") Hn Hu sql_not_inherited). simpl.
  change (mbind ?f ?m) with (bind f m).
  by rewrite (js_get_own data (js "explanation") Hn Hu explanation_not_inherited).
Qed.

Lemma ENDPOINTS_get (key : jsstring) :
  js_get ENDPOINTS key = inr (endpoint_value key).
Proof.
  unfold ENDPOINTS, endpoint_value, js_get.
  destruct (decide (key = js "keyword")) as [->|Hk].
  { by rewrite lookup_insert_eq. }
  rewrite lookup_insert_ne by done.
  destruct (decide (key = js "cluster")) as [->|Hc].
  { by rewrite lookup_insert_eq. }
  rewrite lookup_insert_ne by done. rewrite lookup_empty.
  by destruct (bool_decide _).
Qed.

(** The call is one [fetch] and, once it has settled, a return or a throw. *)
Lemma callGenerateSqlAPI_shape (question : jsstring) (modelId : option jsstring) :
  ∃ k, callGenerateSqlAPI question modelId
         = Await (apiUrl_of modelId) (init_of question modelId) k
       ∧ (∀ e, k (Rejected e) = Throw e)
       ∧ (∀ res, k (Resolved res) = read_response res).
Proof.
  unfold callGenerateSqlAPI, apiUrl_of, js_or, fetch.
  unfold mbind, Async_bind.
  rewrite (ENDPOINTS_get (ToPropertyKey modelId)), (ENDPOINTS_get (js "keyword")).
  cbn [lift bind].
  destruct (truthy (endpoint_value (ToPropertyKey modelId)));
    cbn [lift bind]; eexists; (split; [reflexivity|]); by split.
Qed.


Lemma callGenerateSqlAPI_total (question : jsstring) (modelId : option jsstring)
    (o : FetchOutcome) :
  ∃ r : js_error + ApiResult,
    resume (callGenerateSqlAPI question modelId) o = lift r.
Proof.
  destruct (callGenerateSqlAPI_shape question modelId) as (k & -> & Hrej & Hres).
  destruct o as [e|res]; simpl.
  - exists (inl e). apply Hrej.
  - rewrite Hres. apply read_response_leaf.
Qed.

(** ** The handlers *)

Lemma handleAsk_rejected (input : jsstring) (loading : bool) (m : jsstring) :
  loading = true ∨ trim input = [] → handleAsk input loading m = Ret tt.
Proof.
  intros [->|H]; unfold handleAsk.
  - by rewrite orb_true_r.
  - by rewrite H.
Qed.

Lemma ask_accepted (env : Env) (s : System) :
  loading (ui s) = false → trim (input (ui s)) ≠ [] →
  ∃ c, dispatch env s Ask = asked env s c
       ∧ call_of_ask (trim (input (ui s))) (model (ui s)) c.
Proof.
  intros Hl Hq. unfold dispatch, handleAsk.
  rewrite Hl, (truthy_VStr_nonempty _ Hq). cbn [negb orb].
  destruct (callGenerateSqlAPI_shape (trim (input (ui s))) (Some (model (ui s))))
    as (k & Hcall & Hrej & Hres).
  unfold mbind, Async_bind in *. rewrite Hcall.
  cbn. eexists. split; [reflexivity|].
  split; [done|]. split; [done|].
  intros env' o r s' Hr. rewrite Hcall in Hr. cbn [resume] in Hr.
  cbn [call_k]. rewrite Hr.
  destruct r as [e|a]; reflexivity.
Qed.

Lemma ask_rejected (env : Env) (s : System) :
  loading (ui s) = true ∨ trim (input (ui s)) = [] → dispatch env s Ask = s.
Proof. intros H. unfold dispatch. by rewrite (handleAsk_rejected _ _ _ H). Qed.

Lemma settle_call (env : Env) (s : System) (i : nat) (o : FetchOutcome)
    (c : Call) (q m : jsstring) :
  inflight s !! i = Some c → call_of_ask q m c →
  ∃ r, resume (callGenerateSqlAPI q (Some m)) o = lift r
       ∧ dispatch env s (Settle i o)
         = settled env m r
             {| ui := ui s; reads := reads s; inflight := delete i (inflight s) |}.
Proof.
  intros Hi (_ & _ & Hk).
  destruct (callGenerateSqlAPI_total q (Some m) o) as [r Hr].
  exists r. split; [done|]. unfold dispatch. rewrite Hi. by apply Hk.
Qed.

(** A submission either changes nothing or parks one call. *)
Lemma ask_cases (env : Env) (s : System) :
  dispatch env s Ask = s
  ∨ (loading (ui s) = false
     ∧ ∃ c, dispatch env s Ask = asked env s c
          ∧ call_of_ask (trim (input (ui s))) (model (ui s)) c).
Proof.
  destruct (loading (ui s)) eqn:Hl.
  { left. apply ask_rejected. by left. }
  destruct (decide (trim (input (ui s)) = [])) as [Hq|Hq].
  { left. apply ask_rejected. by right. }
  right. split; [done|]. by apply ask_accepted.
Qed.

(** ** The pending flag and the requests in flight *)

(** Under the invariant a settlement either changes nothing (no such
    request) or completes the one call in flight. *)
Lemma settle_cases (env : Env) (s : System) (i : nat) (o : FetchOutcome) :
  Inv s →
  dispatch env s (Settle i o) = s
  ∨ ∃ m r, loading (ui s) = true
         ∧ dispatch env s (Settle i o)
           = settled env m r {| ui := ui s; reads := reads s; inflight := [] |}.
Proof.
  intros [[_ Hin]|(Hl & c & q & m & Hin & Hc)].
  { left. unfold dispatch. by rewrite Hin. }
  destruct i as [|i].
  - right. destruct (settle_call env s 0 o c q m) as (r & _ & ->);
      [by rewrite Hin|done|].
    exists m, r. split; [done|]. by rewrite Hin.
  - left. unfold dispatch. by rewrite Hin.
Qed.

Lemma Inv_mount (env : Env) : Inv (mount env).
Proof. by left. Qed.

Lemma Inv_dispatch (env : Env) (s : System) (ev : Event) :
  Inv s → Inv (dispatch env s ev).
Proof.
  intros HI. destruct ev as [text|m| | |i o]; [done|done| |done|].
  - destruct (ask_cases env s) as [->|(Hl & c & -> & Hc)]; [done|].
    destruct HI as [[_ Hin]|[Ht _]]; [|congruence].
    right. split; [done|]. exists c, (trim (input (ui s))), (model (ui s)).
    split; [|done]. cbn. by rewrite Hin.
  - destruct (settle_cases env s i o HI) as [->|(m & r & _ & ->)]; [done|].
    by left.
Qed.

Lemma reachable_Inv (env : Env) (s : System) : reachable env s → Inv s.
Proof.
  induction 1 as [|s ev _ IH _]; [apply Inv_mount|by apply Inv_dispatch].
Qed.

(** The selected model is always one the selector offers. *)
Lemma reachable_model (env : Env) (s : System) :
  reachable env s → model (ui s) ∈ MODELS.*1.
Proof.
  induction 1 as [|s ev Hr IH Hev]; [set_solver|].
  destruct ev as [text|m| | |i o]; [done|done| |done|].
  - by destruct (ask_cases env s) as [->|(_ & c & -> & _)].
  - by destruct (settle_cases env s i o (reachable_Inv env s Hr))
      as [->|(m & r & _ & ->)].
Qed.

(** So a submission made through the component posts to one of the two
    configured endpoints. *)
Lemma reachable_ask_url (env : Env) (s : System) :
  reachable env s → loading (ui s) = false → trim (input (ui s)) ≠ [] →
  ∃ c, inflight (dispatch env s Ask) = [c]
     ∧ (call_url c = VStr keyword_url ∨ call_url c = VStr cluster_url).
Proof.
  intros Hr Hl Hq.
  destruct (ask_accepted env s Hl Hq) as (c & -> & Hurl & _).
  destruct (reachable_Inv env s Hr) as [[_ Hin]|[Ht _]]; [|congruence].
  exists c. split; [by cbn; rewrite Hin|]. rewrite Hurl.
  pose proof (reachable_model env s Hr) as Hm.
  apply elem_of_cons in Hm as [->|Hm]; [by left|].
  apply elem_of_cons in Hm as [->|Hm]; [by right|].
  by apply elem_of_nil in Hm.
Qed.

(** ** Claims about the client *)

Lemma res_ok_false (res : Response) :
  ¬ (200 ≤ res_status res ≤ 299)%Z → res_ok res = false.
Proof. unfold res_ok. intros H. apply andb_false_iff. lia. Qed.

(** C3: a call to [callGenerateSqlAPI] issues one request and nothing else.
    When the response has a status outside 200-299 the call throws one
    [Error] whose message is the response body text; when the request itself
    fails the call throws that very error.  Whatever the outcome, the call
    ends there: it issues no second request and sets no timer. *)
Theorem callGenerateSqlAPI_failure (question : jsstring) (modelId : option jsstring) :
  ∃ url init k,
    callGenerateSqlAPI question modelId = Await url init k
    ∧ (∀ res, ¬ (200 ≤ res_status res ≤ 299)%Z →
         k (Resolved res) = Throw (Error (res_text res))
         ∧ err_message (Error (res_text res)) = res_text res)
    ∧ (∀ e, k (Rejected e) = Throw e)
    ∧ (∀ o, ∃ r : js_error + ApiResult, k o = lift r).
Proof.
  destruct (callGenerateSqlAPI_shape question modelId) as (k & Hcall & Hrej & Hres).
  exists (apiUrl_of modelId), (init_of question modelId), k.
  split; [done|]. split; [|split; [done|]].
  - intros res Hst. split; [|done].
    rewrite Hres. by apply read_response_not_ok, res_ok_false.
  - intros [e|res]; [by exists (inl e)|].
    rewrite Hres. apply read_response_leaf.
Qed.

Lemma callGenerateSqlAPI_failure_witness :
  resume (callGenerateSqlAPI (js "q") (Some (js "keyword"))) (Resolved Sample.boom)
  = Throw (Error (js "boom")).
Proof.
  destruct (callGenerateSqlAPI_failure (js "q") (Some (js "keyword")))
    as (url & init & k & Hcall & Hbad & _).
  rewrite Hcall. cbn [resume].
  apply (Hbad Sample.boom). cbn. lia.
Defined.


(** A body that is the JSON value [null] makes the call throw the TypeError
    of the property read. *)
Example callGenerateSqlAPI_null_body :
  resume (callGenerateSqlAPI (js "q") (Some (js "keyword")))
    (Resolved {| res_status := 200; res_text := js "null"; res_json := inr VNull |})
  = Throw (TypeError_read (js "sql")).
Proof. vm_compute. reflexivity. Qed.




(** C10: in both components the request body has [schema_path]
    [schema_tree.json], [keywords_path] [keyword_to_tables.json] and
    [dialect] [mysql].  In the shell component, when the model identifier is
    absent or falsy the body's [model] is [gpt-5] and the request goes to the
    basic endpoint; in the boxed component [model] is always [gpt-5]. *)
Theorem request_body_fixed (question : jsstring) (modelId : option jsstring) :
  (∃ url init k,
     Shell.callGenerateSqlAPI question modelId = Await url init k
     ∧ Payload.question (body init) = question
     ∧ Payload.schema_path (body init) = js "schema_tree.json"
     ∧ Payload.keywords_path (body init) = js "keyword_to_tables.json"
     ∧ Payload.dialect (body init) = js "mysql"
     ∧ (truthy (arg_val modelId) = false →
          Payload.model (body init) = VStr (js "gpt-5")
          ∧ url = VStr Shell.keyword_url))
  ∧ (∃ init k,
       Boxed.callGenerateSqlAPI question = Await (VStr Boxed.API_URL) init k
       ∧ Payload.question (body init) = question
       ∧ Payload.schema_path (body init) = js "schema_tree.json"
       ∧ Payload.keywords_path (body init) = js "keyword_to_tables.json"
       ∧ Payload.dialect (body init) = js "mysql"
       ∧ Payload.model (body init) = VStr (js "gpt-5")).
Proof.
  split.
  - destruct (callGenerateSqlAPI_shape question modelId) as (k & Hcall & _).
    exists (apiUrl_of modelId), (init_of question modelId), k.
    repeat (split; [done|]).
    intros Hf. split.
    + cbn. unfold js_or. by rewrite Hf.
    + destruct modelId as [[|c m]|]; [reflexivity|discriminate Hf|reflexivity].
  - unfold Boxed.callGenerateSqlAPI, fetch. cbn. by eexists _, _.
Qed.

Lemma request_body_fixed_witness :
  ∃ url init k,
    Shell.callGenerateSqlAPI (js "q") None = Await url init k
    ∧ Payload.model (body init) = VStr (js "gpt-5")
    ∧ url = VStr Shell.keyword_url.
Proof.
  destruct (request_body_fixed (js "q") None)
    as [(url & init & k & Hcall & _ & _ & _ & _ & Hfalsy) _].
  exists url, init, k. split; [exact Hcall|]. apply Hfalsy. reflexivity.
Defined.

Lemma res_ok_true (res : Response) :
  (200 ≤ res_status res ≤ 299)%Z → res_ok res = true.
Proof. unfold res_ok. intros H. apply andb_true_iff. lia. Qed.

(** C2, as the code has it: on a response with a status in 200-299 whose
    body parses to a JSON value other than [null], the call returns
    [{sql, explanation}] where each field is the body's own field of that
    name, unchanged and of whatever type, when it is present and not
    [null], and the empty string when it is missing or [null] (so for every
    body that is not an object). *)
Theorem callGenerateSqlAPI_success (question : jsstring) (modelId : option jsstring)
    (res : Response) (data : jsval) :
  (200 ≤ res_status res ≤ 299)%Z → res_json res = inr data →
  data ≠ VNull → data ≠ VUndefined →
  resume (callGenerateSqlAPI question modelId) (Resolved res)
  = Ret {| sql := nullish (own_field data (js "sql")) (VStr []);
           explanation := nullish (own_field data (js "explanation")) (VStr []) |}.
Proof.
  intros Hst Hj Hn Hu.
  destruct (callGenerateSqlAPI_shape question modelId) as (k & -> & _ & Hres).
  cbn [resume]. rewrite Hres.
  apply read_response_ok; [|done..].
  by apply res_ok_true.
Qed.

Lemma callGenerateSqlAPI_success_witness :
  resume (callGenerateSqlAPI (js "q") (Some (js "keyword"))) (Resolved Sample.select_1)
  = Ret {| sql := VStr (js "SELECT 1"); explanation := VStr (js "because") |}.
Proof.
  refine (eq_trans
    (callGenerateSqlAPI_success (js "q") (Some (js "keyword")) Sample.select_1
       Sample.select_1_data _ eq_refl _ _) _).
  - cbn. lia.
  - discriminate.
  - discriminate.
  - vm_compute. reflexivity.
Defined.

(** C2 fails as stated: for the body [{sql: 42}] of a 200 response the
    call returns the number 42 as [sql], which is not a string and not the
    empty string. *)
Lemma callGenerateSqlAPI_success_number :
  res_status Sample.sql_42 = 200%Z ∧
  ∃ r, resume (callGenerateSqlAPI (js "q") (Some (js "keyword"))) (Resolved Sample.sql_42)
       = Ret r
     ∧ sql r = VNum Sample.forty_two
     ∧ ∀ s, sql r ≠ VStr s.
Proof.
  split; [done|].
  destruct (callGenerateSqlAPI_shape (js "q") (Some (js "keyword")))
    as (k & -> & _ & Hres).
  cbn [resume]. rewrite Hres.
  rewrite (read_response_ok Sample.sql_42 Sample.sql_42_data) by done.
  eexists. split; [reflexivity|].
  split; [by vm_compute|]. intros s. by vm_compute.
Qed.

Lemma ask_then_settle (env : Env) (s : System) :
  loading (ui s) = false → trim (input (ui s)) ≠ [] →
  ∃ c, dispatch env s Ask = asked env s c
    ∧ call_url c = apiUrl_of (Some (model (ui s)))
    ∧ call_init c = init_of (trim (input (ui s))) (Some (model (ui s)))
    ∧ ∀ s2 i o, inflight s2 !! i = Some c →
        ∃ r, resume (callGenerateSqlAPI (trim (input (ui s))) (Some (model (ui s)))) o
               = lift r
           ∧ dispatch env s2 (Settle i o)
             = settled env (model (ui s)) r
                 {| ui := ui s2; reads := reads s2; inflight := delete i (inflight s2) |}.
Proof.
  intros Hl Hq. destruct (ask_accepted env s Hl Hq) as (c & Hask & Hc).
  exists c. split; [done|]. split; [apply Hc|]. split; [apply Hc|].
  intros s2 i o Hi. by apply (settle_call env s2 i o c _ _ Hi Hc).
Qed.

Lemma lift_inj {A : Type} (r1 r2 : js_error + A) : lift r1 = lift r2 → r1 = r2.
Proof. destruct r1, r2; simpl; congruence. Qed.

(** ** Claims about the conversation *)

(** C4: [handleAsk] does nothing when [loading] is true or the input is
    empty after trimming: the messages, the pending flag, the input text and
    the requests in flight are all as before.  And in every state the
    component can reach, at most one request is in flight. *)
Theorem handleAsk_noop (env : Env) (s : System) :
  (loading (ui s) = true ∨ trim (input (ui s)) = [] →
     handleAsk (input (ui s)) (loading (ui s)) (model (ui s)) = Ret tt
     ∧ messages (ui (dispatch env s Ask)) = messages (ui s)
     ∧ loading (ui (dispatch env s Ask)) = loading (ui s)
     ∧ input (ui (dispatch env s Ask)) = input (ui s)
     ∧ inflight (dispatch env s Ask) = inflight s)
  ∧ (reachable env s → length (inflight s) ≤ 1).
Proof.
  split.
  - intros H. split; [by apply handleAsk_rejected|].
    by rewrite (ask_rejected env s H).
  - intros Hr. destruct (reachable_Inv env s Hr)
      as [[_ ->]|(_ & c & q & m & -> & _)]; simpl; lia.
Qed.

Lemma handleAsk_noop_witness :
  messages (ui (dispatch Sample.env Sample.submitted Ask)) = messages (ui Sample.submitted)
  ∧ length (inflight Sample.submitted) ≤ 1.
Proof.
  split.
  - apply (proj1 (handleAsk_noop Sample.env Sample.submitted)).
    left. reflexivity.
  - apply (proj2 (handleAsk_noop Sample.env Sample.submitted)).
    apply reach_step; [|exact I].
    apply reach_step; [|exact I].
    apply reach_mount.
Defined.

(** C7: whatever the state, [handleNewChat] leaves exactly one message, the
    seed greeting, with the id, role, text and explanation of the message
    the component starts with. *)
Theorem handleNewChat_resets (env : Env) (s : System) :
  ∃ m m0,
    messages (ui (dispatch env s NewChat)) = [m]
    ∧ length (messages (ui (dispatch env s NewChat))) = 1
    ∧ messages (ui (mount env)) = [m0]
    ∧ msg_id m = js "seed" ∧ msg_id m = msg_id m0
    ∧ msg_role m = assistant ∧ msg_role m = msg_role m0
    ∧ msg_text m = msg_text m0
    ∧ msg_explanation m = msg_explanation m0
    ∧ msg_sql m = msg_sql m0
    ∧ msg_error m = msg_error m0.
Proof.
  exists (seed (now_at env (reads s))), (seed (now_at env 0)).
  by repeat split.
Qed.

Lemma dispatch_prefix (env : Env) (s : System) (ev : Event) :
  Inv s → ev ≠ NewChat →
  messages (ui s) `prefix_of` messages (ui (dispatch env s ev)).
Proof.
  intros HI Hev. destruct ev as [text|m| | |i o]; [done|done| |done|].
  - destruct (ask_cases env s) as [->|(_ & c & -> & _)]; [done|].
    by apply prefix_app_r.
  - destruct (settle_cases env s i o HI) as [->|(m & r & _ & ->)]; [done|].
    by apply prefix_app_r.
Qed.

(** C9: from any state the component can reach, any sequence of events
    without a reset keeps the messages there were, unchanged and in order,
    as a prefix of the messages afterwards. *)
Theorem messages_append_only (env : Env) (s : System) (evs : list Event) :
  reachable env s → NewChat ∉ evs →
  messages (ui s) `prefix_of` messages (ui (run env s evs)).
Proof.
  intros Hr. apply reachable_Inv in Hr. revert s Hr.
  induction evs as [|ev evs IH]; intros s HI Hev; [done|].
  cbn [run foldl]. etrans.
  - apply (dispatch_prefix env s ev HI). set_solver.
  - apply IH; [by apply Inv_dispatch|set_solver].
Qed.

Lemma messages_append_only_witness :
  messages (ui Sample.typed) `prefix_of`
  messages (ui (run Sample.env Sample.typed [Ask; Settle 0 (Resolved Sample.boom)])).
Proof.
  apply (messages_append_only Sample.env Sample.typed).
  - apply reach_step; [apply reach_mount|exact I].
  - intros H. apply elem_of_cons in H as [H|H]; [discriminate H|].
    apply elem_of_cons in H as [H|H]; [discriminate H|].
    by apply elem_of_nil in H.
Defined.

(** C5: a submission with a non-empty trimmed question while nothing is
    pending appends one user message with the trimmed question as its text
    (and no [sql], [explanation] or [error]), sets [loading], and issues
    exactly one request.  [loading] stays set as long as that call is in
    flight.  When the call settles, exactly one assistant message is
    appended, [loading] is cleared and no request is left in flight.  The
    message is the answer variant when the call returned (the text naming
    the model, [sql] and [explanation] of the result, no [error]) and the
    error variant when it threw (the apology text, no [sql], [explanation]
    the error's message or [String(err)] when that is empty, [error] the
    string [true]). *)
Theorem handleAsk_appends (env : Env) (s : System) :
  reachable env s → loading (ui s) = false → trim (input (ui s)) ≠ [] →
  ∃ u c,
    messages (ui (dispatch env s Ask)) = messages (ui s) ++ [u]
    ∧ msg_role u = user
    ∧ msg_text u = trim (input (ui s))
    ∧ msg_sql u = None ∧ msg_explanation u = None ∧ msg_error u = None
    ∧ loading (ui (dispatch env s Ask)) = true
    ∧ inflight (dispatch env s Ask) = [c]
    ∧ Payload.question (body (call_init c)) = trim (input (ui s))
    ∧ ∀ s2 i o,
        reachable env s2 → inflight s2 !! i = Some c →
        loading (ui s2) = true
        ∧ ∃ a r,
            resume (callGenerateSqlAPI (trim (input (ui s))) (Some (model (ui s)))) o
              = lift r
            ∧ messages (ui (dispatch env s2 (Settle i o))) = messages (ui s2) ++ [a]
            ∧ msg_role a = assistant
            ∧ match r with
              | inr res =>
                  msg_text a
                  = js "Here is a suggested SQL query using " ++ model (ui s) ++ js "."
                  ∧ msg_sql a = Some (sql res)
                  ∧ msg_explanation a = Some (explanation res)
                  ∧ msg_error a = None
              | inl err =>
                  msg_text a = js "Sorry, I couldn't generate a query."
                  ∧ msg_sql a = None
                  ∧ msg_explanation a
                    = Some (VStr (if bool_decide (err_message err = [])
                                  then Error_toString err else err_message err))
                  ∧ msg_error a = Some (VStr (js "true"))
              end
            ∧ loading (ui (dispatch env s2 (Settle i o))) = false
            ∧ inflight (dispatch env s2 (Settle i o)) = [].
Proof.
  intros Hr Hl Hq.
  destruct (ask_then_settle env s Hl Hq) as (c & Hask & _ & Hinit & Hsettle).
  destruct (reachable_Inv env s Hr) as [[_ Hin]|[Ht _]]; [|congruence].
  eexists _, c. rewrite Hask. split; [reflexivity|].
  do 6 (split; [done|]).
  split; [by cbn; rewrite Hin|]. split; [by rewrite Hinit|].
  intros s2 i o Hr2 Hi.
  destruct (reachable_Inv env s2 Hr2) as [[_ Hin2]|(Hl2 & c' & q & m & Hin2 & _)].
  { by rewrite Hin2 in Hi. }
  split; [done|].
  destruct (Hsettle s2 i o Hi) as (r & Hres & ->).
  eexists _, r. split; [done|]. split; [reflexivity|].
  split; [by destruct r|]. split.
  { destruct r as [err|res]; [|done].
    cbn [settle_message error_message msg_text msg_sql msg_explanation msg_error].
    do 2 (split; [done|]). split; [|done].
    unfold error_text. rewrite truthy_VStr. by destruct (bool_decide _). }
  split; [done|]. cbn. rewrite Hin2 in Hi |- *.
  destruct i; [done|]. by destruct i.
Qed.

Lemma typed_reachable : reachable Sample.env Sample.typed.
Proof. apply reach_step; [apply reach_mount|exact I]. Defined.

Lemma handleAsk_appends_witness :
  (∃ u, messages (ui (dispatch Sample.env Sample.typed Ask))
        = messages (ui Sample.typed) ++ [u]
      ∧ msg_text u = js "hi")
  ∧ msg_error <$>
      last (messages (ui (dispatch Sample.env Sample.submitted
                            (Settle 0 (Resolved Sample.boom)))))
    = Some (Some (VStr (js "true")))
  ∧ loading (ui (dispatch Sample.env Sample.submitted
                   (Settle 0 (Resolved Sample.boom)))) = false.
Proof.
  destruct (handleAsk_appends Sample.env Sample.typed typed_reachable eq_refl)
    as (u & c & Hm & _ & Ht & _ & _ & _ & _ & Hin & _ & Hsettle).
  - discriminate.
  - split; [exists u; split; [exact Hm|rewrite Ht; reflexivity]|].
    destruct (Hsettle Sample.submitted 0 (Resolved Sample.boom))
      as (_ & a & r & Hr & Ha & _ & Hvar & Hl & _).
    + apply reach_step; [exact typed_reachable|exact I].
    + unfold Sample.submitted. rewrite Hin. reflexivity.
    + split; [|exact Hl]. rewrite Ha, last_snoc.
      cbn [fmap option_fmap option_map].
      vm_compute in Hr. destruct r as [err|res]; [|discriminate Hr].
      destruct Hvar as (_ & _ & _ & ->). reflexivity.
Defined.

(** C1, as the code has it: when the call of a submission throws, the
    assistant message appended has [error] set to the string [true] and
    [explanation] set to the message of the error thrown, or to the text
    [String(err)] when that message is empty.  For a response with a status
    outside 200-299 and a non-empty body the explanation is the body text;
    for a failed request with a non-empty error message it is that
    message. *)
Theorem handleAsk_error_message (env : Env) (s : System) :
  loading (ui s) = false → trim (input (ui s)) ≠ [] →
  ∃ c,
    inflight (dispatch env s Ask) = inflight s ++ [c]
    ∧ ∀ s2 i o err,
        inflight s2 !! i = Some c →
        resume (callGenerateSqlAPI (trim (input (ui s))) (Some (model (ui s)))) o
          = Throw err →
        ∃ a,
          messages (ui (dispatch env s2 (Settle i o))) = messages (ui s2) ++ [a]
          ∧ msg_role a = assistant
          ∧ msg_error a = Some (VStr (js "true"))
          ∧ msg_explanation a
            = Some (VStr (if bool_decide (err_message err = [])
                          then Error_toString err else err_message err))
          ∧ (∀ res, o = Resolved res → ¬ (200 ≤ res_status res ≤ 299)%Z →
               res_text res ≠ [] →
               msg_explanation a = Some (VStr (res_text res)))
          ∧ (∀ e, o = Rejected e → err_message e ≠ [] →
               msg_explanation a = Some (VStr (err_message e))).
Proof.
  intros Hl Hq.
  destruct (ask_then_settle env s Hl Hq) as (c & Hask & _ & _ & Hsettle).
  exists c. split; [by rewrite Hask|].
  intros s2 i o err Hi Herr.
  destruct (Hsettle s2 i o Hi) as (r & Hres & ->).
  rewrite Herr in Hres. apply (lift_inj (inl err)) in Hres as <-.
  eexists. split; [reflexivity|].
  assert (error_text err = if bool_decide (err_message err = [])
                           then Error_toString err else err_message err) as Htext.
  { unfold error_text. rewrite truthy_VStr. by destruct (bool_decide _). }
  cbn. rewrite Htext. split; [done|]. split; [done|]. split; [done|].
  destruct (callGenerateSqlAPI_shape (trim (input (ui s))) (Some (model (ui s))))
    as (k & Hcall & Hrej & Hok).
  rewrite Hcall in Herr. cbn [resume] in Herr. split.
  - intros res -> Hst Hne. rewrite Hok in Herr.
    rewrite read_response_not_ok in Herr by by apply res_ok_false.
    injection Herr as <-. cbn. by rewrite bool_decide_eq_false_2.
  - intros e -> Hne. rewrite Hrej in Herr. injection Herr as <-.
    by rewrite bool_decide_eq_false_2.
Qed.

Lemma handleAsk_error_message_witness :
  msg_explanation <$>
    last (messages (ui (dispatch Sample.env Sample.submitted
                          (Settle 0 (Resolved Sample.boom)))))
  = Some (Some (VStr (js "boom"))).
Proof.
  destruct (handleAsk_error_message Sample.env Sample.typed eq_refl)
    as (c & Hin & Hsettle).
  - discriminate.
  - destruct (Hsettle Sample.submitted 0 (Resolved Sample.boom) (Error (js "boom")))
      as (a & Hm & _ & _ & _ & Hbody & _).
    + unfold Sample.submitted. rewrite Hin. reflexivity.
    + vm_compute. reflexivity.
    + rewrite Hm, last_snoc. cbn [fmap option_fmap option_map].
      rewrite (Hbody Sample.boom eq_refl); [reflexivity|cbn; lia|discriminate].
Defined.

(** C1 fails as stated: after the 500 response with body [boom] the
    assistant message has [error] set to the string [true], which is not the
    boolean [true]. *)
Lemma handleAsk_error_is_string :
  res_status Sample.boom = 500%Z ∧ res_text Sample.boom = js "boom" ∧
  msg_error <$>
    last (messages (ui (dispatch Sample.env Sample.submitted
                          (Settle 0 (Resolved Sample.boom)))))
  = Some (Some (VStr (js "true")))
  ∧ msg_error <$>
      last (messages (ui (dispatch Sample.env Sample.submitted
                            (Settle 0 (Resolved Sample.boom)))))
    ≠ Some (Some (VBool true)).
Proof.
  split; [done|]. split; [done|].
  assert (msg_error <$>
            last (messages (ui (dispatch Sample.env Sample.submitted
                                  (Settle 0 (Resolved Sample.boom)))))
          = Some (Some (VStr (js "true")))) as H by (vm_compute; reflexivity).
  split; [exact H|]. rewrite H. discriminate.
Qed.

(** With an empty body the explanation is not the body text either: the
    message of the error is empty, and [String(err)] gives [Error]. *)
Example handleAsk_error_empty_body :
  msg_explanation <$>
    last (messages (ui (dispatch Sample.env Sample.submitted
                          (Settle 0 (Resolved Sample.empty_500)))))
  = Some (Some (VStr (js "Error"))).
Proof. vm_compute. reflexivity. Qed.

(** C6: when the call of a submission returns [{sql, explanation}], the
    assistant message appended has exactly these as [sql] and
    [explanation], and no [error] property; so for [SELECT 1] and [because]
    it has [sql] [SELECT 1], [explanation] [because] and [error] unset. *)
Theorem handleAsk_answer_message (env : Env) (s : System) :
  loading (ui s) = false → trim (input (ui s)) ≠ [] →
  ∃ c,
    inflight (dispatch env s Ask) = inflight s ++ [c]
    ∧ ∀ s2 i o r,
        inflight s2 !! i = Some c →
        resume (callGenerateSqlAPI (trim (input (ui s))) (Some (model (ui s)))) o
          = Ret r →
        ∃ a,
          messages (ui (dispatch env s2 (Settle i o))) = messages (ui s2) ++ [a]
          ∧ msg_role a = assistant
          ∧ msg_sql a = Some (sql r)
          ∧ msg_explanation a = Some (explanation r)
          ∧ msg_error a = None
          ∧ (r = {| sql := VStr (js "SELECT 1"); explanation := VStr (js "because") |} →
               msg_sql a = Some (VStr (js "SELECT 1"))
               ∧ msg_explanation a = Some (VStr (js "because"))).
Proof.
  intros Hl Hq.
  destruct (ask_then_settle env s Hl Hq) as (c & Hask & _ & _ & Hsettle).
  exists c. split; [by rewrite Hask|].
  intros s2 i o r Hi Hret.
  destruct (Hsettle s2 i o Hi) as (r' & Hres & ->).
  rewrite Hret in Hres. apply (lift_inj (inr r)) in Hres as <-.
  eexists. split; [reflexivity|]. cbn.
  repeat (split; [done|]). by intros ->.
Qed.

Lemma handleAsk_answer_message_witness :
  msg_sql <$>
    last (messages (ui (dispatch Sample.env Sample.submitted
                          (Settle 0 (Resolved Sample.select_1)))))
  = Some (Some (VStr (js "SELECT 1"))).
Proof.
  destruct (handleAsk_answer_message Sample.env Sample.typed eq_refl)
    as (c & Hin & Hsettle).
  - discriminate.
  - destruct (Hsettle Sample.submitted 0 (Resolved Sample.select_1)
                {| sql := VStr (js "SELECT 1"); explanation := VStr (js "because") |})
      as (a & Hm & _ & _ & _ & _ & Hex).
    + unfold Sample.submitted. rewrite Hin. reflexivity.
    + vm_compute. reflexivity.
    + rewrite Hm, last_snoc. cbn [fmap option_fmap option_map].
      destruct (Hex eq_refl) as [-> _]. reflexivity.
Defined.

(** * Further properties *)

(** ** Trimming *)

Lemma trimStart_suffix (s : jsstring) : ∃ p, s = p ++ trimStart s.
Proof.
  induction s as [|c s [p IH]]; [by exists []|].
  cbn [trimStart]. destruct (is_js_whitespace c).
  - exists (c :: p). cbn. by rewrite <- IH.
  - by exists [].
Qed.

Lemma trimStart_head (s : jsstring) (c : N) (r : jsstring) :
  trimStart s = c :: r → is_js_whitespace c = false.
Proof.
  induction s as [|d s IH]; [done|].
  cbn [trimStart]. destruct (is_js_whitespace d) eqn:Hd; [done|].
  intros [= -> _]. done.
Qed.

Lemma trimStart_fixed (s : jsstring) (c : N) (r : jsstring) :
  s = c :: r → is_js_whitespace c = false → trimStart s = s.
Proof. intros -> H. cbn [trimStart]. by rewrite H. Qed.

(** A trimmed string that is not empty starts and ends with a character
    that is not white space. *)
Lemma trim_edges (s : jsstring) (c : N) (r : jsstring) :
  trim s = c :: r →
  is_js_whitespace c = false
  ∧ ∃ d, last (c :: r) = Some d ∧ is_js_whitespace d = false.
Proof.
  unfold trim, trimEnd. intros H.
  destruct (trimStart_suffix (rev (trimStart s))) as [p Hp].
  destruct (trimStart (rev (trimStart s))) as [|d u] eqn:Hu; [done|].
  split.
  - apply (f_equal (λ l, rev l)) in Hp. cbv beta in Hp.
    rewrite rev_involutive, rev_app_distr in Hp.
    rewrite H in Hp. cbn in Hp. by apply (trimStart_head s c (r ++ rev p)).
  - exists d. split; [|by apply (trimStart_head _ _ _ Hu)].
    rewrite <- H. cbn [rev]. by rewrite last_snoc.
Qed.

(** ** Lines *)

Lemma split_lines_nonempty (s : jsstring) : split_lines s ≠ [].
Proof.
  destruct s as [|c r]; [done|]. cbn [split_lines].
  destruct (c =? 10)%N; [done|]. by destruct (split_lines r).
Qed.

Lemma join_split_lines (s : jsstring) : join_lines (split_lines s) = s.
Proof.
  induction s as [|c r IH]; [done|]. cbn [split_lines].
  destruct (N.eqb_spec c 10) as [->|Hc].
  - cbn [join_lines]. pose proof (split_lines_nonempty r) as Hne.
    destruct (split_lines r) as [|l ls] eqn:Hr; [done|]. cbn [app]. by rewrite IH.
  - destruct (split_lines r) as [|l ls] eqn:Hr.
    { by destruct (split_lines_nonempty r). }
    cbn [join_lines] in *. destruct ls; cbn [app]; by rewrite IH.
Qed.

Lemma split_lines_no_feed (l : jsstring) : 10%N ∉ l → split_lines l = [l].
Proof.
  induction l as [|c l IH]; [done|]. intros H.
  apply not_elem_of_cons in H as [Hc Hl]. cbn [split_lines].
  destruct (N.eqb_spec c 10) as [->|_]; [done|]. by rewrite (IH Hl).
Qed.

Lemma split_lines_app_feed (l t : jsstring) :
  10%N ∉ l → split_lines (l ++ 10%N :: t) = l :: split_lines t.
Proof.
  induction l as [|c l IH]; [done|]. intros H.
  apply not_elem_of_cons in H as [Hc Hl]. cbn [split_lines app].
  destruct (N.eqb_spec c 10) as [->|_]; [done|]. by rewrite (IH Hl).
Qed.

Lemma split_join_lines (ls : list jsstring) :
  ls ≠ [] → Forall (λ l, 10%N ∉ l) ls → split_lines (join_lines ls) = ls.
Proof.
  induction ls as [|l rest IH]; [done|]. intros _ H.
  pose proof (Forall_inv H) as Hl. pose proof (Forall_inv_tail H) as Hrest.
  cbn [join_lines].
  destruct rest as [|l' rest']; [by apply split_lines_no_feed|].
  rewrite split_lines_app_feed by done. by rewrite IH.
Qed.

Lemma split_lines_feed_free (s : jsstring) :
  Forall (λ l, 10%N ∉ l) (split_lines s).
Proof.
  induction s as [|c r IH]; [constructor; [apply not_elem_of_nil|done]|].
  cbn [split_lines]. destruct (N.eqb_spec c 10) as [->|Hc].
  - constructor; [apply not_elem_of_nil|done].
  - destruct (split_lines r) as [|l ls].
    { constructor; [|done]. apply not_elem_of_cons.
      split; [done|apply not_elem_of_nil]. }
    pose proof (Forall_inv IH) as Hl. pose proof (Forall_inv_tail IH) as Hls.
    constructor; [|done].
    apply not_elem_of_cons. by split.
Qed.

Lemma indent_line_feed_free (l : jsstring) : 10%N ∉ l → 10%N ∉ indent_line l.
Proof.
  intros H. unfold indent_line. destruct (truthy _); [|done].
  cbn. rewrite !not_elem_of_cons. by repeat split.
Qed.

Lemma split_indent_text (s : jsstring) :
  split_lines (indent_text s) = map indent_line (split_lines s).
Proof.
  unfold indent_text. apply split_join_lines.
  - pose proof (split_lines_nonempty s). by destruct (split_lines s).
  - apply Forall_map. eapply Forall_impl; [apply split_lines_feed_free|].
    intros l. apply indent_line_feed_free.
Qed.

Lemma trim_skip (c : N) (l : jsstring) :
  is_js_whitespace c = true → trim (c :: l) = trim l.
Proof. intros H. unfold trim. cbn [trimStart]. by rewrite H. Qed.

Lemma trim_indent_line (l : jsstring) : trim (indent_line l) = trim l.
Proof.
  unfold indent_line. destruct (truthy _); [|done].
  cbn [js map String.list_ascii_of_string app]. by rewrite !trim_skip.
Qed.

Lemma indent_line_cases (l : jsstring) :
  indent_line l = if bool_decide (trim l = []) then l else 32%N :: 32%N :: l.
Proof.
  unfold indent_line. rewrite truthy_VStr. by destruct (bool_decide _).
Qed.

(** X1: [indentSql] keeps the lines of a string as they are, one for one:
    a line that is empty or all white space is unchanged, every other line
    gets exactly two spaces in front, and after trimming the lines are the
    same as before. *)
Theorem indentSql_lines (s : jsstring) :
  indentSql (VStr s) = inr (indent_text s)
  ∧ length (split_lines (indent_text s)) = length (split_lines s)
  ∧ (∀ i l, split_lines s !! i = Some l →
       split_lines (indent_text s) !! i
       = Some (if bool_decide (trim l = []) then l else 32%N :: 32%N :: l))
  ∧ trim <$> split_lines (indent_text s) = trim <$> split_lines s.
Proof.
  split; [done|]. rewrite split_indent_text. split; [by rewrite length_map|].
  split.
  - intros i l Hl. rewrite list_lookup_fmap, Hl. cbn.
    by rewrite indent_line_cases.
  - rewrite <- list_fmap_compose. apply list_fmap_ext.
    intros _ l _. apply trim_indent_line.
Qed.

Lemma indentSql_lines_witness :
  split_lines (indent_text (js "SELECT 1" ++ [10%N] ++ js " " ++ [10%N] ++ js "FROM t")) !! 2
  = Some (js "  FROM t").
Proof.
  refine (eq_trans (proj1 (proj2 (proj2 (indentSql_lines _))) 2 (js "FROM t") _) _);
    reflexivity.
Defined.

Lemma length_join_lines (ls : list jsstring) :
  ls ≠ [] → S (length (join_lines ls)) = sum_list_with (λ l, S (length l)) ls.
Proof.
  induction ls as [|l rest IH]; [done|]. intros _. cbn [join_lines].
  destruct rest as [|l' rest']; [cbn; lia|].
  rewrite length_app. cbn [length sum_list_with] in *.
  specialize (IH ltac:(done)). lia.
Qed.

Lemma sum_indent_lines (ls : list jsstring) :
  sum_list_with (λ l, S (length l)) (map indent_line ls)
  = sum_list_with (λ l, S (length l)) ls
    + 2 * length (filter (λ l, trim l ≠ []) ls).
Proof.
  induction ls as [|l rest IH]; [done|].
  rewrite filter_cons. cbn [map sum_list_with].
  rewrite IH, indent_line_cases.
  destruct (decide (trim l ≠ [])) as [H|H].
  - rewrite bool_decide_eq_false_2 by done. cbn [length]. lia.
  - apply dec_stable in H. rewrite bool_decide_eq_true_2 by done. lia.
Qed.

(** X2: [indentSql] adds two characters for each line that is not blank and
    nothing else. *)
Theorem indentSql_length (s : jsstring) :
  length (indent_text s)
  = length s + 2 * length (filter (λ l, trim l ≠ []) (split_lines s)).
Proof.
  pose proof (split_lines_nonempty s) as Hne.
  assert (map indent_line (split_lines s) ≠ []) as Hne'.
  { by destruct (split_lines s). }
  pose proof (length_join_lines _ Hne') as H1.
  pose proof (length_join_lines _ Hne) as H2.
  rewrite join_split_lines in H2. rewrite sum_indent_lines in H1.
  unfold indent_text. lia.
Qed.

(** ** The answer panel *)

Lemma error_text_nil (err : js_error) :
  error_text err = [] ↔ err_name err = [] ∧ err_message err = [].
Proof.
  unfold error_text, Error_toString. rewrite truthy_VStr.
  destruct (decide (err_message err = [])) as [Hm|Hm].
  - rewrite (bool_decide_eq_true_2 _ Hm). cbn [negb].
    destruct (decide (err_name err = [])) as [Hn|Hn].
    + rewrite (bool_decide_eq_true_2 _ Hn). tauto.
    + rewrite (bool_decide_eq_false_2 _ Hn). tauto.
  - rewrite (bool_decide_eq_false_2 _ Hm). cbn [negb]. tauto.
Qed.

Lemma prop_Some (v : jsval) : prop (Some v) = v.
Proof. reflexivity. Qed.

Lemma prop_None : prop None = VUndefined.
Proof. reflexivity. Qed.

(** Unfold the panel of a message down to the tests on its fields. *)
Ltac open_panel :=
  unfold message_answer;
  cbn [msg_role msg_sql msg_explanation msg_error
       Shell.error_message Shell.answer_message Shell.user_message Shell.seed
       Boxed.error_message Boxed.answer_message];
  rewrite ?prop_Some, ?prop_None;
  unfold AssistantAnswer, js_or.

(** X3: the panel under an error message shows the explanation, which is
    the error's message, or [String(err)] when that is empty; the fallback
    text is shown only for an error with neither name nor message.  For a
    response with a status outside 200-299 it is the body text, or [Error]
    for an empty body, never the fallback. *)
Theorem error_panel (id : jsstring) (err : js_error) (now : Z) :
  message_answer (error_message id err now)
  = Some (inr (Some (ErrorText (VStr
      (if bool_decide (err_name err = [] ∧ err_message err = [])
       then js "Something went wrong." else error_text err)))))
  ∧ ∀ body,
      message_answer (error_message id (Error body) now)
      = Some (inr (Some (ErrorText (VStr
          (if bool_decide (body = []) then js "Error" else body))))).
Proof.
  assert (∀ e, message_answer (error_message id e now)
    = Some (inr (Some (ErrorText (VStr
        (if bool_decide (err_name e = [] ∧ err_message e = [])
         then js "Something went wrong." else error_text e)))))) as H.
  { intros e. open_panel.
    change (truthy (VStr (js "true"))) with true. cbv iota.
    rewrite truthy_VStr. pose proof (error_text_nil e) as Hnil.
    destruct (decide (error_text e = [])) as [Ht|Ht].
    - rewrite (bool_decide_eq_true_2 _ Ht). cbn [negb].
      by rewrite bool_decide_eq_true_2 by by apply Hnil.
    - rewrite (bool_decide_eq_false_2 _ Ht). cbn [negb].
      by rewrite bool_decide_eq_false_2 by by rewrite <- Hnil. }
  split; [apply H|]. intros body. rewrite H.
  rewrite bool_decide_eq_false_2 by by intros [? _].
  unfold error_text, Error_toString. rewrite truthy_VStr.
  cbn [err_message err_name Error].
  destruct (decide (body = [])) as [->|Hb]; [done|].
  by rewrite !(bool_decide_eq_false_2 _ Hb).
Qed.

(** X4: the panel under an answer throws a TypeError exactly when [sql] is
    truthy and not a string (a number other than zero, [true], an array, an
    object): [indentSql] calls [split] on it.  With a string or a falsy
    value as [sql] it never throws. *)
Theorem answer_panel_throws (id m : jsstring) (r : ApiResult) (now : Z) :
  (truthy (sql r) = true → (∀ str, sql r ≠ VStr str) →
     ∃ e, message_answer (answer_message id m r now) = Some (inl e)
        ∧ err_name e = js "TypeError")
  ∧ (truthy (sql r) = false ∨ (∃ str, sql r = VStr str) →
       ∃ a, message_answer (answer_message id m r now) = Some (inr a)).
Proof.
  open_panel. change (truthy VUndefined) with false. cbv iota.
  split.
  - intros Ht Hs. rewrite Ht. cbn [negb andb].
    destruct (sql r) as [| |b|x|str| | |]; try done; cbn [indentSql]; eauto.
    by destruct (Hs str).
  - intros [Hf|[str Hs]].
    + rewrite Hf. cbn [negb andb]. destruct (truthy (explanation r)); eauto.
    + rewrite Hs. cbn [indentSql]. destruct (truthy (VStr str)); cbn [negb andb]; [eauto|].
      destruct (truthy (explanation r)); eauto.
Qed.

Lemma answer_panel_throws_witness :
  ∃ e, message_answer
         (answer_message (js "id") (js "keyword")
            {| sql := VNum Sample.forty_two; explanation := VStr [] |} 0)
       = Some (inl e)
     ∧ err_name e = js "TypeError".
Proof.
  apply (proj1 (answer_panel_throws (js "id") (js "keyword")
                  {| sql := VNum Sample.forty_two; explanation := VStr [] |} 0)).
  - reflexivity.
  - intros str. discriminate.
Defined.

(** ** The composer *)

Lemma send_disabled_true (st : State) :
  send_disabled st = true ↔ loading st = true ∨ trim (input st) = [].
Proof.
  unfold send_disabled. rewrite truthy_VStr, negb_involutive.
  rewrite orb_true_iff, bool_decide_eq_true. tauto.
Qed.

(** X5: the Ask button is disabled exactly in the states in which
    [handleAsk] does nothing: a click on the enabled button always changes
    the state, and in a state with the button disabled a submission (by
    the Enter key) changes nothing. *)
Theorem send_disabled_iff_noop (env : Env) (s : System) :
  send_disabled (ui s) = true ↔ dispatch env s Ask = s.
Proof.
  rewrite send_disabled_true. split; [apply ask_rejected|].
  intros Heq. destruct (loading (ui s)) eqn:Hl; [by left|]. right.
  destruct (decide (trim (input (ui s)) = [])) as [Hq|Hq]; [done|].
  destruct (ask_accepted env s Hl Hq) as (c & Hask & _).
  rewrite Hask in Heq. apply (f_equal (λ x, loading (ui x))) in Heq.
  cbn in Heq. congruence.
Qed.

Lemma send_disabled_iff_noop_witness :
  dispatch Sample.env Sample.submitted Ask = Sample.submitted.
Proof.
  apply (proj1 (send_disabled_iff_noop Sample.env Sample.submitted)).
  reflexivity.
Defined.

(** X6: [onKeyDown] submits on Enter without Shift, just as the button
    does, and prevents the default even when the submission is rejected;
    with Shift held, or on any other key, it neither prevents the default
    nor changes anything. *)
Theorem onKeyDown_submits (env : Env) (s : System) (e : KeyEvent) :
  (key e = js "Enter" → shiftKey e = false →
     (onKeyDown e (ui s)).1 = true
     ∧ exec env (onKeyDown e (ui s)).2 s = dispatch env s Ask
     ∧ (send_disabled (ui s) = true → exec env (onKeyDown e (ui s)).2 s = s))
  ∧ (key e ≠ js "Enter" ∨ shiftKey e = true →
       (onKeyDown e (ui s)).1 = false
       ∧ exec env (onKeyDown e (ui s)).2 s = s).
Proof.
  unfold onKeyDown. split.
  - intros Hk Hs. rewrite (bool_decide_eq_true_2 _ Hk), Hs. cbn [negb andb fst snd].
    split; [done|]. split; [done|].
    intros Hd. apply send_disabled_true in Hd. by apply ask_rejected.
  - intros [Hk|Hs].
    + by rewrite (bool_decide_eq_false_2 _ Hk).
    + rewrite Hs, andb_false_r. done.
Qed.

Lemma onKeyDown_submits_witness :
  exec Sample.env (onKeyDown {| key := js "Enter"; shiftKey := false |}
                     (ui Sample.typed)).2 Sample.typed
  = Sample.submitted.
Proof.
  apply (proj1 (onKeyDown_submits Sample.env Sample.typed
                  {| key := js "Enter"; shiftKey := false |})); reflexivity.
Defined.

(** ** What the handlers never do *)

Lemma never_throws_after_call {A : Type} (r : js_error + ApiResult)
    (f : ApiResult → Async A) (h : js_error → Async A) (fin : Async unit) :
  (∀ a, never_throws (try_finally (try_catch (f a) h) fin)) →
  (∀ e, never_throws (try_finally (h e) fin)) →
  never_throws (try_finally (try_catch (bind f (lift r)) h) fin).
Proof. intros Hf Hh. destruct r as [e|a]; cbn [lift bind try_catch]; auto. Qed.

(** X7: [handleAsk] never ends in a throw (an unhandled rejection), in
    either component: whatever the input, the identifiers and the clock,
    and however the request settles, every failure of the call is caught. *)
Theorem handleAsk_never_throws (input : jsstring) (loading : bool) (m : jsstring) :
  never_throws (Shell.handleAsk input loading m)
  ∧ never_throws (Boxed.handleAsk input loading).
Proof.
  split.
  - unfold Shell.handleAsk. destruct (negb _ || loading); [constructor|].
    destruct (callGenerateSqlAPI_shape (trim input) (Some m)) as (k & Hcall & Hrej & Hres).
    unfold mbind, Async_bind. rewrite Hcall.
    cbn [bind randomUUID now_ms setMessages setInput setLoading try_catch try_finally].
    do 5 (constructor; intros). constructor. intros o.
    assert (∃ r, k o = lift r) as [r ->].
    { destruct o as [e|res]; [exists (inl e); apply Hrej|].
      rewrite Hres. apply read_response_leaf. }
    apply never_throws_after_call; intros;
      cbn [bind try_catch try_finally]; repeat (constructor; intros).
  - unfold Boxed.handleAsk. destruct (negb _ || loading); [constructor|].
    unfold Boxed.callGenerateSqlAPI, fetch, mbind, Async_bind.
    cbn [bind randomUUID now_ms setMessages setInput setLoading try_catch try_finally].
    do 5 (constructor; intros). constructor. intros o.
    assert (∃ r : js_error + ApiResult,
              bind (λ res, read_response res)
                match o with Rejected e => Throw e | Resolved res => Ret res end
              = lift r) as [r Hr].
    { destruct o as [e|res]; [by exists (inl e)|]. apply read_response_leaf. }
    rewrite Hr.
    apply never_throws_after_call; intros;
      cbn [bind try_catch try_finally]; repeat (constructor; intros).
Qed.

(** X8: in every state the shell component can reach, [loading] is true
    exactly when a request is in flight, and then there is exactly one: the
    Generating indicator never shows without a pending request and never
    hides one. *)
Theorem loading_iff_inflight (env : Env) (s : System) :
  reachable env s →
  length (inflight s) = (if loading (ui s) then 1 else 0)
  ∧ (loading (ui s) = true ↔ inflight s ≠ []).
Proof.
  intros Hr.
  destruct (reachable_Inv env s Hr) as [[-> ->]|(-> & c & q & m & -> & _)];
    (split; [done|]); split; done.
Qed.

Lemma loading_iff_inflight_witness :
  length (inflight Sample.submitted) = 1.
Proof.
  apply (proj1 (loading_iff_inflight Sample.env Sample.submitted
                  (reach_step _ _ Ask typed_reachable I))).
Defined.

(** ** Identifiers *)

(** The identifiers of the messages: the seed first, then identifiers read
    earlier, each once. *)
Lemma reachable_ids (env : Env) (s : System) :
  reachable env s →
  ∃ ns, msg_id <$> messages (ui s) = js "seed" :: (uuid_at env <$> ns)
      ∧ NoDup ns ∧ Forall (λ n, n < reads s) ns.
Proof.
  assert (∀ ns n, NoDup ns → Forall (λ k, k < n) ns →
            NoDup (ns ++ [n]) ∧ Forall (λ k, k < S (S n)) (ns ++ [n])) as Hext.
  { intros ns n Hnd Hlt. split.
    - apply NoDup_app. split; [done|]. split; [|apply NoDup_singleton].
      intros k Hk Hk'. apply list_elem_of_singleton in Hk' as ->.
      rewrite Forall_forall in Hlt. specialize (Hlt _ Hk). lia.
    - apply Forall_app. split; [|repeat constructor; lia].
      eapply Forall_impl; [done|]. cbn. lia. }
  induction 1 as [|s ev Hr (ns & Hids & Hnd & Hlt) Hev].
  { exists []. split; [done|]. split; constructor. }
  destruct ev as [text|m| | |i o].
  - by exists ns.
  - by exists ns.
  - destruct (ask_cases env s) as [->|(_ & c & -> & _)]; [by exists ns|].
    exists (ns ++ [reads s]). cbn [asked ui messages reads].
    rewrite !fmap_app, Hids. split; [done|]. by apply Hext.
  - exists []. split; [done|]. split; constructor.
  - destruct (settle_cases env s i o (reachable_Inv env s Hr))
      as [->|(m & r & _ & ->)]; [by exists ns|].
    exists (ns ++ [reads s]). cbn [settled ui messages reads].
    rewrite !fmap_app, Hids. split; [by destruct r|]. by apply Hext.
Qed.

(** X9: when [crypto.randomUUID()] never repeats itself and never returns
    [seed], the messages of every reachable state have pairwise distinct
    ids, as the [key] of the rendered list needs. *)
Theorem message_ids_distinct (env : Env) (s : System) :
  (∀ i j, uuid_at env i = uuid_at env j → i = j) →
  (∀ i, uuid_at env i ≠ js "seed") →
  reachable env s →
  NoDup (msg_id <$> messages (ui s)).
Proof.
  intros Hinj Hseed Hr.
  destruct (reachable_ids env s Hr) as (ns & -> & Hnd & _).
  apply NoDup_cons. split.
  - intros Hin. apply list_elem_of_fmap in Hin as (n & Hn & _).
    by apply (Hseed n).
  - apply NoDup_fmap_2; [|done]. intros i j. apply Hinj.
Qed.

Lemma message_ids_distinct_witness :
  NoDup (msg_id <$> messages (ui Sample.submitted)).
Proof.
  apply (message_ids_distinct Sample.env Sample.submitted).
  - intros i j H. unfold Sample.env in H. cbn [uuid_at] in H.
    apply app_inv_head in H. injection H as H. lia.
  - intros i. discriminate.
  - apply (reach_step _ _ Ask typed_reachable I).
Defined.

(** ** Requests *)

(** X10: every request the shell component sends carries the selected
    model and goes to that model's endpoint: [keyword] with the basic URL or
    [cluster] with the premium URL.  The fallback model [gpt-5] is never
    sent by the component. *)
Theorem ask_request_model (env : Env) (s : System) :
  reachable env s → loading (ui s) = false → trim (input (ui s)) ≠ [] →
  ∃ c, inflight (dispatch env s Ask) = [c]
     ∧ method (call_init c) = js "POST"
     ∧ Payload.model (body (call_init c)) = VStr (model (ui s))
     ∧ Payload.model (body (call_init c)) ≠ VStr (js "gpt-5")
     ∧ ((model (ui s) = js "keyword" ∧ call_url c = VStr keyword_url)
        ∨ (model (ui s) = js "cluster" ∧ call_url c = VStr cluster_url)).
Proof.
  intros Hr Hl Hq.
  destruct (ask_accepted env s Hl Hq) as (c & -> & Hurl & Hinit & _).
  destruct (reachable_Inv env s Hr) as [[_ Hin]|[Ht _]]; [|congruence].
  exists c. split; [by cbn; rewrite Hin|]. rewrite Hinit, Hurl.
  pose proof (reachable_model env s Hr) as Hm.
  apply elem_of_cons in Hm as [Hm|Hm].
  { cbn in Hm. rewrite Hm. split; [done|]. split; [done|]. split; [done|]. by left. }
  apply elem_of_cons in Hm as [Hm|Hm]; [|by apply elem_of_nil in Hm].
  cbn in Hm. rewrite Hm. split; [done|]. split; [done|]. split; [done|]. by right.
Qed.

Lemma ask_request_model_witness :
  ∃ c, inflight Sample.submitted = [c] ∧ call_url c = VStr keyword_url.
Proof.
  destruct (ask_request_model Sample.env Sample.typed typed_reachable eq_refl)
    as (c & Hin & _ & _ & _ & [[_ Hu]|[Hm _]]).
  - discriminate.
  - exists c. split; [exact Hin|exact Hu].
  - discriminate Hm.
Defined.

(** X11: the question of an accepted submission, as sent in the request and
    as shown in the user message, is the input without the white space
    around it: it is not empty and neither starts nor ends with white
    space. *)
Theorem ask_question_trimmed (env : Env) (s : System) :
  loading (ui s) = false → trim (input (ui s)) ≠ [] →
  ∃ c u q first last_,
    inflight (dispatch env s Ask) = inflight s ++ [c]
    ∧ last (messages (ui (dispatch env s Ask))) = Some u
    ∧ Payload.question (body (call_init c)) = q
    ∧ msg_text u = q
    ∧ q = trim (input (ui s))
    ∧ head q = Some first ∧ is_js_whitespace first = false
    ∧ last q = Some last_ ∧ is_js_whitespace last_ = false.
Proof.
  intros Hl Hq.
  destruct (ask_accepted env s Hl Hq) as (c & Hask & _ & Hinit & _).
  assert (∃ first r, trim (input (ui s)) = first :: r) as (first & r & Ht).
  { destruct (trim (input (ui s))) as [|first r]; [done|by exists first, r]. }
  destruct (trim_edges _ _ _ Ht) as (Hf & d & Hd & Hw).
  exists c, (user_message (uuid_at env (reads s)) (trim (input (ui s)))
               (now_at env (S (reads s)))),
    (trim (input (ui s))), first, d.
  rewrite Hask, Hinit. cbn [asked ui messages inflight]. rewrite last_snoc, Ht.
  by repeat split.
Qed.

Lemma ask_question_trimmed_witness :
  ∃ c, inflight Sample.submitted = [c]
     ∧ Payload.question (body (call_init c)) = js "hi".
Proof.
  destruct (ask_question_trimmed Sample.env Sample.typed eq_refl)
    as (c & u & q & first & last_ & Hin & _ & Hq & _ & -> & _).
  - discriminate.
  - exists c. split; [exact Hin|exact Hq].
Defined.

(** ** Submissions and the other events *)

Lemma input_stays_empty (env : Env) (s : System) (ev : Event) :
  Inv s → input (ui s) = [] → (∀ text, ev ≠ ChangeInput text) →
  input (ui (dispatch env s ev)) = [].
Proof.
  intros HI Hin Hev. destruct ev as [text|m| | |i o].
  - by destruct (Hev text).
  - done.
  - rewrite ask_rejected; [done|]. right. by rewrite Hin.
  - done.
  - by destruct (settle_cases env s i o HI) as [->|(m & r & _ & ->)].
Qed.

(** X12: an accepted submission empties the text area, and until the user
    types again it stays empty and every further submission is rejected,
    whether or not the request has settled in between: a question cannot be
    sent twice by submitting twice. *)
Theorem no_resubmit_without_typing (env : Env) (s : System) (evs : list Event) :
  reachable env s → loading (ui s) = false → trim (input (ui s)) ≠ [] →
  (∀ text, ChangeInput text ∉ evs) →
  input (ui (run env (dispatch env s Ask) evs)) = []
  ∧ dispatch env (run env (dispatch env s Ask) evs) Ask
    = run env (dispatch env s Ask) evs.
Proof.
  intros Hr Hl Hq Hevs.
  assert (Inv (dispatch env s Ask)) as HI.
  { apply Inv_dispatch. by apply (reachable_Inv env). }
  assert (input (ui (dispatch env s Ask)) = []) as Hin.
  { by destruct (ask_accepted env s Hl Hq) as (c & -> & _). }
  assert (∀ s', Inv s' → input (ui s') = [] → input (ui (run env s' evs)) = [])
    as Hrun.
  { clear HI Hin. induction evs as [|ev evs IH]; [done|]. intros s' HI' Hin'.
    cbn [run foldl]. apply IH.
    - intros text Ht. apply (Hevs text). by right.
    - by apply Inv_dispatch.
    - apply input_stays_empty; [done..|]. intros text ->.
      apply (Hevs text). by left. }
  split; [by apply Hrun|].
  apply ask_rejected. right. by rewrite Hrun.
Qed.

Lemma no_resubmit_without_typing_witness :
  dispatch Sample.env
    (run Sample.env Sample.submitted [Settle 0 (Resolved Sample.boom)]) Ask
  = run Sample.env Sample.submitted [Settle 0 (Resolved Sample.boom)].
Proof.
  apply (no_resubmit_without_typing Sample.env Sample.typed
           [Settle 0 (Resolved Sample.boom)] typed_reachable eq_refl).
  - discriminate.
  - intros text H. apply elem_of_cons in H as [H|H]; [discriminate H|].
    by apply elem_of_nil in H.
Defined.

(** X13: [handleNewChat] does not cancel a pending request: [loading] stays
    true and the request stays in flight, and when it settles its reply is
    appended to the new conversation, right after the seed. *)
Theorem newChat_keeps_request (env : Env) (s : System) :
  reachable env s → loading (ui s) = true →
  loading (ui (dispatch env s NewChat)) = true
  ∧ inflight (dispatch env s NewChat) = inflight s
  ∧ ∀ o, ∃ a,
      messages (ui (dispatch env (dispatch env s NewChat) (Settle 0 o)))
      = [seed (now_at env (reads s)); a]
      ∧ msg_role a = assistant
      ∧ loading (ui (dispatch env (dispatch env s NewChat) (Settle 0 o))) = false
      ∧ inflight (dispatch env (dispatch env s NewChat) (Settle 0 o)) = [].
Proof.
  intros Hr Hl.
  destruct (reachable_Inv env s Hr) as [[Hf _]|(_ & c & q & m & Hin & Hc)];
    [congruence|].
  split; [done|]. split; [done|]. intros o.
  destruct (settle_call env (dispatch env s NewChat) 0 o c q m) as (r & _ & ->).
  { cbn. by rewrite Hin. }
  { done. }
  eexists. cbn. split; [reflexivity|]. rewrite Hin.
  split; [by destruct r|]. done.
Qed.

Lemma newChat_keeps_request_witness :
  length (messages (ui (dispatch Sample.env (dispatch Sample.env Sample.submitted NewChat)
                          (Settle 0 (Resolved Sample.select_1))))) = 2.
Proof.
  destruct (newChat_keeps_request Sample.env Sample.submitted
              (reach_step _ _ Ask typed_reachable I) eq_refl)
    as (_ & _ & H).
  destruct (H (Resolved Sample.select_1)) as (a & -> & _).
  reflexivity.
Defined.

(** X14: the answer names the model that was selected when the question
    was submitted, even if another model has been selected by the time the
    request settles; settling does not change the selection. *)
Theorem answer_names_model_at_submit (env : Env) (s : System) :
  loading (ui s) = false → trim (input (ui s)) ≠ [] →
  ∃ c,
    inflight (dispatch env s Ask) = inflight s ++ [c]
    ∧ ∀ s2 i o r,
        inflight s2 !! i = Some c →
        resume (callGenerateSqlAPI (trim (input (ui s))) (Some (model (ui s)))) o
          = Ret r →
        ∃ a,
          last (messages (ui (dispatch env s2 (Settle i o)))) = Some a
          ∧ msg_text a
            = js "Here is a suggested SQL query using " ++ model (ui s) ++ js "."
          ∧ model (ui (dispatch env s2 (Settle i o))) = model (ui s2).
Proof.
  intros Hl Hq.
  destruct (ask_then_settle env s Hl Hq) as (c & Hask & _ & _ & Hsettle).
  exists c. split; [by rewrite Hask|].
  intros s2 i o r Hi Hret.
  destruct (Hsettle s2 i o Hi) as (r' & Hres & ->).
  rewrite Hret in Hres. apply (lift_inj (inr r)) in Hres as <-.
  eexists. cbn [settled ui messages model]. rewrite last_snoc.
  split; [reflexivity|]. done.
Qed.

Lemma answer_names_model_at_submit_witness :
  msg_text <$>
    last (messages (ui (run Sample.env Sample.submitted
                          [SelectModel (js "cluster");
                           Settle 0 (Resolved Sample.select_1)])))
  = Some (js "Here is a suggested SQL query using keyword.").
Proof.
  destruct (answer_names_model_at_submit Sample.env Sample.typed eq_refl)
    as (c & Hin & Hsettle).
  - discriminate.
  - destruct (Hsettle (dispatch Sample.env Sample.submitted (SelectModel (js "cluster")))
                0 (Resolved Sample.select_1)
                {| sql := VStr (js "SELECT 1"); explanation := VStr (js "because") |})
      as (a & Hm & Ht & _).
    + cbn [dispatch exec setModel with_ui inflight]. unfold Sample.submitted.
      rewrite Hin. reflexivity.
    + vm_compute. reflexivity.
    + cbn [run foldl]. rewrite Hm. cbn [fmap option_fmap option_map].
      rewrite Ht. reflexivity.
Defined.

(** ** The copy button *)

Module CopyFacts.
Import CopyButton.

Section Button.
Variables (delay : Z) (value : jsval).

Lemma copy_Inv_mount : Inv delay value mount.
Proof.
  unfold Inv. cbn. split; [apply Forall_nil_2|]. split; [apply Forall_nil_2|].
  split; [done|]. discriminate.
Qed.

(** What the settlement of a pending write does. *)
Lemma write_settled (s : State) (i : nat) (r : js_error + unit)
    (w : jsval * (js_error + unit → Prog)) :
  Inv delay value s → writes s !! i = Some w →
  dispatch delay value s (WriteSettled i r)
  = match r with
    | inl _ =>
        {| ok := ok s; writes := delete i (writes s); timers := timers s;
           unhandled := unhandled s |}
    | inr _ =>
        {| ok := true; writes := delete i (writes s);
           timers := timers s ++ [(delay, SetOk false Done)];
           unhandled := unhandled s |}
    end.
Proof.
  intros (Hw & _) Hi. unfold dispatch. rewrite Hi. destruct w as [v k].
  destruct (Forall_lookup_1 _ _ _ _ Hw Hi) as [_ Hk]. cbn [snd] in Hk.
  rewrite Hk. by destruct r.
Qed.

Lemma timer_fired (s : State) (i : nat) (t : Z * Prog) :
  Inv delay value s → timers s !! i = Some t →
  dispatch delay value s (TimerFired i)
  = {| ok := false; writes := writes s; timers := delete i (timers s);
       unhandled := unhandled s |}.
Proof.
  intros (_ & Ht & _) Hi. unfold dispatch. rewrite Hi.
  by rewrite (Forall_lookup_1 _ _ _ _ Ht Hi).
Qed.

Lemma copy_Inv_dispatch (s : State) (ev : Event) :
  Inv delay value s → Inv delay value (dispatch delay value s ev).
Proof.
  intros HI. pose proof HI as (Hw & Ht & Hu & Hok).
  destruct ev as [|i r|i].
  - cbn. split; [|done]. apply Forall_app. split; [done|].
    constructor; [|done]. split; [done|]. by intros [e|[]].
  - destruct (writes s !! i) as [w|] eqn:Hi.
    + rewrite (write_settled s i r w HI Hi). destruct r as [e|u].
      * split; [by apply Forall_delete|done].
      * split; [by apply Forall_delete|]. split.
        { apply Forall_app. split; [done|]. by repeat constructor. }
        split; [done|]. intros _. cbn. by destruct (timers s).
    + unfold dispatch. by rewrite Hi.
  - destruct (timers s !! i) as [t|] eqn:Hi.
    + rewrite (timer_fired s i t HI Hi).
      split; [done|]. split; [by apply Forall_delete|]. done.
    + unfold dispatch. by rewrite Hi.
Qed.

Lemma copy_Inv_run (s : State) (evs : list Event) :
  Inv delay value s → Inv delay value (run delay value s evs).
Proof.
  revert s. induction evs as [|ev evs IH]; [done|]. intros s HI.
  cbn [run foldl]. apply IH. by apply copy_Inv_dispatch.
Qed.

End Button.

(** X15: a click on the button, in any state and so also on a fresh one,
    issues one clipboard write with the button's value and changes nothing
    else.  When a pending write fails nothing happens: [ok], the timers and
    the label are as before and no rejection is left unhandled.  When it
    succeeds [ok] is set, so the label reads [Copied], and one timer with
    the component's delay is armed. *)
Theorem copy_write_settles (delay : Z) (value : jsval) (evs : list Event) :
  (writes (dispatch delay value (run delay value mount evs) Click)
   = writes (run delay value mount evs)
       ++ [(value, λ r, try_catch
                          match r with
                          | inl e => Raise e
                          | inr _ => SetOk true (SetTimeout (SetOk false Done) delay Done)
                          end Done)]
   ∧ length (writes (dispatch delay value (run delay value mount evs) Click))
     = S (length (writes (run delay value mount evs)))
   ∧ ok (dispatch delay value (run delay value mount evs) Click)
     = ok (run delay value mount evs)
   ∧ timers (dispatch delay value (run delay value mount evs) Click)
     = timers (run delay value mount evs)
   ∧ unhandled (dispatch delay value (run delay value mount evs) Click) = [])
  ∧ ∀ i r,
      i < length (writes (run delay value mount evs)) →
      unhandled (dispatch delay value (run delay value mount evs) (WriteSettled i r)) = []
      ∧ length (writes (dispatch delay value (run delay value mount evs)
                          (WriteSettled i r)))
        = length (writes (run delay value mount evs)) - 1
      ∧ match r with
        | inl _ =>
            ok (dispatch delay value (run delay value mount evs) (WriteSettled i r))
            = ok (run delay value mount evs)
            ∧ label (dispatch delay value (run delay value mount evs) (WriteSettled i r))
              = label (run delay value mount evs)
            ∧ timers (dispatch delay value (run delay value mount evs) (WriteSettled i r))
              = timers (run delay value mount evs)
        | inr _ =>
            ok (dispatch delay value (run delay value mount evs) (WriteSettled i r))
            = true
            ∧ label (dispatch delay value (run delay value mount evs) (WriteSettled i r))
              = js "Copied"
            ∧ timers (dispatch delay value (run delay value mount evs) (WriteSettled i r))
              = timers (run delay value mount evs) ++ [(delay, SetOk false Done)]
        end.
Proof.
  pose proof (copy_Inv_run delay value mount evs (copy_Inv_mount delay value)) as HI.
  split.
  - split; [done|]. split; [by cbn; rewrite length_app, Nat.add_1_r|].
    split; [done|]. split; [done|]. apply HI.
  - intros i r Hi.
    destruct (lookup_lt_is_Some_2 _ _ Hi) as [w Hw].
    rewrite (write_settled delay value _ i r w HI Hw).
    pose proof (length_delete (writes (run delay value mount evs)) i
                  (ex_intro _ w Hw)) as Hlen.
    destruct HI as (_ & _ & Hu & _). by destruct r.
Qed.

Lemma copy_write_settles_witness :
  length (writes (run Shell.copy_delay (VStr (js "SELECT 1")) mount [Click])) = 1
  ∧ label (run Shell.copy_delay (VStr (js "SELECT 1")) mount
             [Click; WriteSettled 0 (inr tt)])
    = js "Copied"
  ∧ unhandled (run Shell.copy_delay (VStr (js "SELECT 1")) mount
                 [Click; WriteSettled 0 (inl (Error (js "denied")))])
    = [].
Proof.
  split; [|split].
  - apply (proj1 (copy_write_settles Shell.copy_delay (VStr (js "SELECT 1")) [])).
  - apply (proj2 (copy_write_settles Shell.copy_delay (VStr (js "SELECT 1")) [Click])
             0 (inr tt)).
    cbn. lia.
  - apply (proj2 (copy_write_settles Shell.copy_delay (VStr (js "SELECT 1")) [Click])
             0 (inl (Error (js "denied")))).
    cbn. lia.
Defined.

(** X16: the label reads [Copied] only while a timer is pending, every
    pending timer has the component's delay, and when any of them fires
    [ok] is cleared and only that timer is gone, also when a later copy has
    succeeded in the meantime: timers are never cancelled. *)
Theorem copied_until_timer (delay : Z) (value : jsval) (evs : list Event) :
  (ok (run delay value mount evs) = true → timers (run delay value mount evs) ≠ [])
  ∧ Forall (λ t, t.1 = delay) (timers (run delay value mount evs))
  ∧ ∀ i, i < length (timers (run delay value mount evs)) →
      ok (dispatch delay value (run delay value mount evs) (TimerFired i)) = false
      ∧ timers (dispatch delay value (run delay value mount evs) (TimerFired i))
        = delete i (timers (run delay value mount evs)).
Proof.
  pose proof (copy_Inv_run delay value mount evs (copy_Inv_mount delay value)) as HI.
  split; [apply HI|]. split.
  - destruct HI as (_ & Ht & _). eapply Forall_impl; [exact Ht|]. by intros t ->.
  - intros i Hi. destruct (lookup_lt_is_Some_2 _ _ Hi) as [t Ht].
    by rewrite (timer_fired delay value _ i t HI Ht).
Qed.

Lemma copied_until_timer_witness :
  ok (run Boxed.copy_delay (VStr (js "SELECT 1")) mount
        [Click; WriteSettled 0 (inr tt); Click; WriteSettled 0 (inr tt); TimerFired 0])
  = false.
Proof.
  apply (proj2 (proj2 (copied_until_timer Boxed.copy_delay (VStr (js "SELECT 1"))
           [Click; WriteSettled 0 (inr tt); Click; WriteSettled 0 (inr tt)])) 0).
  cbn. lia.
Defined.

End CopyFacts.

(** ** The boxed component *)

Module BoxedFacts.
Import Boxed.

Lemma boxed_call_shape (question : jsstring) :
  ∃ k, callGenerateSqlAPI question
         = Await (VStr API_URL) (Shell.init_of question None) k
       ∧ (∀ e, k (Rejected e) = Throw e)
       ∧ (∀ res, k (Resolved res) = read_response res).
Proof.
  unfold callGenerateSqlAPI, fetch, mbind, Async_bind. cbn [bind].
  eexists. split; [reflexivity|]. by split.
Qed.

Lemma boxed_call_total (question : jsstring) (o : FetchOutcome) :
  ∃ r : js_error + ApiResult, resume (callGenerateSqlAPI question) o = lift r.
Proof.
  destruct (boxed_call_shape question) as (k & -> & Hrej & Hres).
  destruct o as [e|res]; cbn [resume].
  - exists (inl e). apply Hrej.
  - rewrite Hres. apply read_response_leaf.
Qed.

Lemma boxed_ask_rejected (env : Env) (s : System) :
  loading (ui s) = true ∨ trim (input (ui s)) = [] → dispatch env s Ask = s.
Proof.
  intros H. unfold dispatch, handleAsk. destruct H as [-> | ->].
  - by rewrite orb_true_r.
  - done.
Qed.

Lemma boxed_ask_accepted (env : Env) (s : System) :
  loading (ui s) = false → trim (input (ui s)) ≠ [] →
  ∃ c, dispatch env s Ask = asked env s c ∧ call_of_ask (trim (input (ui s))) c.
Proof.
  intros Hl Hq. unfold dispatch, handleAsk.
  rewrite Hl, (truthy_VStr_nonempty _ Hq). cbn [negb orb].
  destruct (boxed_call_shape (trim (input (ui s)))) as (k & Hcall & Hrej & Hres).
  unfold mbind, Async_bind in *. rewrite Hcall.
  cbn. eexists. split; [reflexivity|].
  split; [done|]. split; [done|].
  intros env' o r s' Hr. rewrite Hcall in Hr. cbn [resume] in Hr.
  cbn [call_k]. rewrite Hr.
  destruct r as [e|a]; reflexivity.
Qed.

Lemma boxed_ask_cases (env : Env) (s : System) :
  dispatch env s Ask = s
  ∨ (loading (ui s) = false ∧ trim (input (ui s)) ≠ []
     ∧ ∃ c, dispatch env s Ask = asked env s c
          ∧ call_of_ask (trim (input (ui s))) c).
Proof.
  destruct (loading (ui s)) eqn:Hl.
  { left. apply boxed_ask_rejected. by left. }
  destruct (decide (trim (input (ui s)) = [])) as [Hq|Hq].
  { left. apply boxed_ask_rejected. by right. }
  right. split; [done|]. split; [done|]. by apply boxed_ask_accepted.
Qed.

Lemma boxed_settle_call (env : Env) (s : System) (i : nat) (o : FetchOutcome)
    (c : Call) (q : jsstring) :
  inflight s !! i = Some c → call_of_ask q c →
  ∃ r, resume (callGenerateSqlAPI q) o = lift r
       ∧ dispatch env s (Settle i o)
         = settled env r
             {| ui := ui s; reads := reads s; inflight := delete i (inflight s) |}.
Proof.
  intros Hi (_ & _ & Hk).
  destruct (boxed_call_total q o) as [r Hr].
  exists r. split; [done|]. unfold dispatch. rewrite Hi. by apply Hk.
Qed.

Lemma boxed_settle_cases (env : Env) (s : System) (i : nat) (o : FetchOutcome) :
  Inv s →
  dispatch env s (Settle i o) = s
  ∨ ∃ r, loading (ui s) = true
       ∧ dispatch env s (Settle i o)
         = settled env r {| ui := ui s; reads := reads s; inflight := [] |}.
Proof.
  intros [[_ Hin]|(Hl & c & q & Hin & Hc)].
  { left. unfold dispatch. by rewrite Hin. }
  destruct i as [|i].
  - right. destruct (boxed_settle_call env s 0 o c q) as (r & _ & ->);
      [by rewrite Hin|done|].
    exists r. split; [done|]. by rewrite Hin.
  - left. unfold dispatch. by rewrite Hin.
Qed.

Lemma boxed_Inv_dispatch (env : Env) (s : System) (ev : Event) :
  Inv s → Inv (dispatch env s ev).
Proof.
  intros HI. destruct ev as [text| |i o]; [done| |].
  - destruct (boxed_ask_cases env s) as [->|(Hl & _ & c & -> & Hc)]; [done|].
    destruct HI as [[_ Hin]|[Ht _]]; [|congruence].
    right. split; [done|]. exists c, (trim (input (ui s))).
    split; [|done]. cbn. by rewrite Hin.
  - destruct (boxed_settle_cases env s i o HI) as [->|(r & _ & ->)]; [done|].
    by left.
Qed.

Lemma boxed_reachable_Inv (env : Env) (s : System) : reachable env s → Inv s.
Proof.
  induction 1 as [|s ev _ IH]; [by left|by apply boxed_Inv_dispatch].
Qed.

Lemma boxed_dispatch_prefix (env : Env) (s : System) (ev : Event) :
  Inv s → messages (ui s) `prefix_of` messages (ui (dispatch env s ev)).
Proof.
  intros HI. destruct ev as [text| |i o]; [done| |].
  - destruct (boxed_ask_cases env s) as [->|(_ & _ & c & -> & _)]; [done|].
    by apply prefix_app_r.
  - destruct (boxed_settle_cases env s i o HI) as [->|(r & _ & ->)]; [done|].
    by apply prefix_app_r.
Qed.

(** X17: the client of the boxed component is the client of the shell
    component called without a model: the same URL, the same request with
    model [gpt-5], and the same result for every outcome of the request. *)
Theorem boxed_client_is_shell_client (question : jsstring) :
  ∃ init k1 k2,
    Shell.callGenerateSqlAPI question None = Await (VStr API_URL) init k1
    ∧ callGenerateSqlAPI question = Await (VStr API_URL) init k2
    ∧ Payload.model (body init) = VStr (js "gpt-5")
    ∧ ∀ o, k1 o = k2 o.
Proof.
  destruct (callGenerateSqlAPI_shape question None) as (k1 & H1 & Hrej1 & Hres1).
  destruct (boxed_call_shape question) as (k2 & H2 & Hrej2 & Hres2).
  exists (Shell.init_of question None), k1, k2.
  split; [exact H1|]. split; [exact H2|]. split; [done|].
  intros [e|res]; congruence.
Qed.

(** X18: in the boxed component a submission while [loading] or with a
    blank input changes nothing.  Any other submission appends one user
    message with the trimmed input, empties the text area, sets [loading]
    and issues one request to [API_URL]; when that request settles, one
    assistant message is appended (the answer, or the error with [error]
    set to the string [true]) and [loading] is cleared. *)
Theorem boxed_handleAsk (env : Env) (s : System) :
  reachable env s →
  (loading (ui s) = true ∨ trim (input (ui s)) = [] → dispatch env s Ask = s)
  ∧ (loading (ui s) = false → trim (input (ui s)) ≠ [] →
     ∃ u c,
       messages (ui (dispatch env s Ask)) = messages (ui s) ++ [u]
       ∧ msg_role u = user ∧ msg_text u = trim (input (ui s))
       ∧ input (ui (dispatch env s Ask)) = []
       ∧ loading (ui (dispatch env s Ask)) = true
       ∧ inflight (dispatch env s Ask) = [c]
       ∧ call_url c = VStr API_URL
       ∧ ∀ s2 i o, inflight s2 !! i = Some c →
           ∃ a r,
             resume (callGenerateSqlAPI (trim (input (ui s)))) o = lift r
             ∧ messages (ui (dispatch env s2 (Settle i o))) = messages (ui s2) ++ [a]
             ∧ msg_role a = assistant
             ∧ match r with
               | inr res => msg_sql a = Some (sql res)
                            ∧ msg_explanation a = Some (explanation res)
                            ∧ msg_error a = None
               | inl err => msg_sql a = None
                            ∧ msg_explanation a = Some (VStr (error_text err))
                            ∧ msg_error a = Some (VStr (js "true"))
               end
             ∧ loading (ui (dispatch env s2 (Settle i o))) = false).
Proof.
  intros Hr. split; [apply boxed_ask_rejected|].
  intros Hl Hq.
  destruct (boxed_ask_accepted env s Hl Hq) as (c & -> & Hc).
  destruct (boxed_reachable_Inv env s Hr) as [[_ Hin]|[Ht _]]; [|congruence].
  eexists _, c. split; [reflexivity|]. do 4 (split; [done|]).
  split; [by cbn; rewrite Hin|]. split; [apply Hc|].
  intros s2 i o Hi.
  destruct (boxed_settle_call env s2 i o c _ Hi Hc) as (r & Hres & ->).
  eexists _, r. split; [done|]. split; [reflexivity|].
  split; [by destruct r|]. split; [by destruct r|]. done.
Qed.

Lemma boxed_handleAsk_witness :
  (∃ u, messages (ui (dispatch Sample.boxed_env Sample.boxed_typed Ask))
        = messages (ui Sample.boxed_typed) ++ [u]
      ∧ msg_text u = js "hi")
  ∧ msg_error <$>
      last (messages (ui (run Sample.boxed_env Sample.boxed_typed
                            [Ask; Settle 0 (Resolved Sample.boom)])))
    = Some (Some (VStr (js "true")))
  ∧ msg_explanation <$>
      last (messages (ui (run Sample.boxed_env Sample.boxed_typed
                            [Ask; Settle 0 (Resolved Sample.boom)])))
    = Some (Some (VStr (js "boom")))
  ∧ loading (ui (run Sample.boxed_env Sample.boxed_typed
                   [Ask; Settle 0 (Resolved Sample.boom)])) = false.
Proof.
  destruct (proj2 (boxed_handleAsk Sample.boxed_env Sample.boxed_typed
                     (reach_step _ _ (ChangeInput (js "  hi ")) (reach_mount _)))
              eq_refl)
    as (u & c & Hm & _ & Ht & _ & _ & Hin & _ & Hsettle).
  - discriminate.
  - split; [exists u; split; [exact Hm|rewrite Ht; reflexivity]|].
    destruct (Hsettle (dispatch Sample.boxed_env Sample.boxed_typed Ask) 0
                (Resolved Sample.boom))
      as (a & r & Hr & Ha & _ & Hvar & Hl).
    + rewrite Hin. reflexivity.
    + cbn [run foldl]. rewrite Ha, last_snoc.
      cbn [fmap option_fmap option_map].
      vm_compute in Hr. destruct r as [err|res]; [|discriminate Hr].
      injection Hr as <-.
      destruct Hvar as (_ & -> & ->). by repeat split.
Defined.

(** X19: in every state the boxed component can reach, [loading] is true
    exactly when a request is in flight, and at most one is. *)
Theorem boxed_loading_iff_inflight (env : Env) (s : System) :
  reachable env s →
  length (inflight s) = (if loading (ui s) then 1 else 0)
  ∧ (loading (ui s) = true ↔ inflight s ≠ []).
Proof.
  intros Hr.
  destruct (boxed_reachable_Inv env s Hr) as [[-> ->]|(-> & c & q & -> & _)];
    (split; [done|]); split; done.
Qed.

Lemma boxed_loading_iff_inflight_witness :
  length (inflight (dispatch Sample.boxed_env
                      (dispatch Sample.boxed_env (mount Sample.boxed_env)
                         (ChangeInput (js "hi"))) Ask)) = 1.
Proof.
  apply (proj1 (boxed_loading_iff_inflight Sample.boxed_env _
                  (reach_step _ _ Ask (reach_step _ _ (ChangeInput (js "hi"))
                                         (reach_mount _))))).
Defined.

(** X20: the boxed component has no reset: from any reachable state, after
    any events at all, the messages there were are still there, unchanged
    and in order, and the first message is always the seed. *)
Theorem boxed_messages_append_only (env : Env) (s : System) (evs : list Event) :
  reachable env s →
  messages (ui s) `prefix_of` messages (ui (run env s evs))
  ∧ msg_id <$> head (messages (ui (run env s evs))) = Some (js "seed").
Proof.
  intros Hr.
  assert (∀ s', Inv s' → messages (ui s') `prefix_of` messages (ui (run env s' evs)))
    as Hrun.
  { induction evs as [|ev evs IH]; [done|]. intros s' HI.
    cbn [run foldl]. etrans; [by apply boxed_dispatch_prefix|].
    apply IH. by apply boxed_Inv_dispatch. }
  assert (∃ rest, messages (ui s) = seed (now_at env 0) :: rest) as [rest Hs].
  { clear Hrun. induction Hr as [|s ev Hr [rest IH]]; [by exists []|].
    destruct (boxed_dispatch_prefix env s ev (boxed_reachable_Inv env s Hr))
      as [more ->].
    rewrite IH. by eexists. }
  pose proof (Hrun s (boxed_reachable_Inv env s Hr)) as Hp.
  split; [done|]. destruct Hp as [more ->]. by rewrite Hs.
Qed.

Lemma boxed_messages_append_only_witness :
  msg_id <$> head (messages (ui (run Sample.boxed_env (mount Sample.boxed_env)
                                   [ChangeInput (js "hi"); Ask;
                                    Settle 0 (Resolved Sample.boom)])))
  = Some (js "seed").
Proof.
  apply (proj2 (boxed_messages_append_only Sample.boxed_env (mount Sample.boxed_env)
                  [ChangeInput (js "hi"); Ask; Settle 0 (Resolved Sample.boom)]
                  (reach_mount _))).
Defined.

End BoxedFacts.

(** ** The client on a successful status *)

(** X21: with a status in 200-299 the call can still fail, in both
    components: when the body is not JSON the call throws the error
    [res.json()] rejects with, and when the body is the JSON value [null] it
    throws the TypeError of reading [sql] on it. *)
Theorem callGenerateSqlAPI_bad_body (question : jsstring) (modelId : option jsstring)
    (res : Response) :
  (200 ≤ res_status res ≤ 299)%Z →
  (∀ e, res_json res = inl e →
     resume (Shell.callGenerateSqlAPI question modelId) (Resolved res) = Throw e
     ∧ resume (Boxed.callGenerateSqlAPI question) (Resolved res) = Throw e)
  ∧ (res_json res = inr VNull →
       resume (Shell.callGenerateSqlAPI question modelId) (Resolved res)
       = Throw (TypeError_read (js "sql"))
       ∧ resume (Boxed.callGenerateSqlAPI question) (Resolved res)
         = Throw (TypeError_read (js "sql"))).
Proof.
  intros Hst. apply res_ok_true in Hst.
  destruct (callGenerateSqlAPI_shape question modelId) as (k1 & -> & _ & Hres1).
  destruct (BoxedFacts.boxed_call_shape question) as (k2 & -> & _ & Hres2).
  cbn [resume]. rewrite Hres1, Hres2. unfold read_response. rewrite Hst.
  cbn [negb]. split.
  - by intros e ->.
  - by intros ->.
Qed.

Lemma callGenerateSqlAPI_bad_body_witness :
  resume (Boxed.callGenerateSqlAPI (js "q"))
    (Resolved {| res_status := 200; res_text := js "null"; res_json := inr VNull |})
  = Throw (TypeError_read (js "sql")).
Proof.
  apply (callGenerateSqlAPI_bad_body (js "q") None
           {| res_status := 200; res_text := js "null"; res_json := inr VNull |}).
  - cbn. lia.
  - reflexivity.
Defined.
